(** * SFTPClient.Client: the command layer of the SFTP client

    A shallow embedding of [src/SFTPClient/Client.py].  The methods of the
    [SFTP] class are state-passing computations in a small state-and-exception
    monad.  The [pysftp] connection they drive is an external collaborator:
    it is an interface ([Facade]) over an abstract remote state, with one
    concrete instance ([TreeFS]) on which the statements are run.  Every call
    that leaves the process is also recorded, in order, in a call log, the
    way the unit tests of the repository observe a mocked connection.

    The commands are embedded with their decorators: [ls], [chmod], [rmdir],
    [rm], [mkdir], [get], [put], [cp] and [history].  The bootstrap of the
    connection and [ping], [is_connected], [lsl] and [close] take no part in
    the statements and are left out. *)

From Stdlib Require Import ZArith Ascii String Decimal DecimalString.
From stdpp Require Import base tactics option list strings gmap.

Local Open Scope string_scope.
Local Open Scope Z_scope.

(** ** Python strings *)

Module PyStr.

(** [str(n)] for a non-negative [int]. *)
Definition str_of_nat (n : nat) : string :=
  NilEmpty.string_of_uint (Nat.to_uint n).

(** [sep.join(parts)]. *)
Fixpoint join (sep : string) (parts : list string) : string :=
  match parts with
  | [] => ""
  | [x] => x
  | x :: rest => x ++ sep ++ join sep rest
  end.

(** [s.find(c)] for a one-character needle: the index of the first
    occurrence, [-1] when there is none. *)
Fixpoint find_from (c : ascii) (s : string) (i : Z) : Z :=
  match s with
  | EmptyString => -1
  | String a rest => if Ascii.eqb a c then i else find_from c rest (i + 1)
  end.

Definition find (c : ascii) (s : string) : Z := find_from c s 0.

(** [s.rfind(c)]: the index of the last occurrence, [-1] when there is
    none. *)
Fixpoint rfind_from (c : ascii) (s : string) (i last : Z) : Z :=
  match s with
  | EmptyString => last
  | String a rest =>
      rfind_from c rest (i + 1) (if Ascii.eqb a c then i else last)
  end.

Definition rfind (c : ascii) (s : string) : Z := rfind_from c s 0 (-1).

(** [s[i:]] for [0 <= i]. *)
Fixpoint drop (i : nat) (s : string) : string :=
  match i, s with
  | O, _ => s
  | S _, EmptyString => EmptyString
  | S i', String _ rest => drop i' rest
  end.

Definition slice_from (i : Z) (s : string) : string := drop (Z.to_nat i) s.

(** [s.startswith(c)]. *)
Definition startswith (c : ascii) (s : string) : bool :=
  match s with
  | String a _ => Ascii.eqb a c
  | EmptyString => false
  end.

(** [s.endswith(c)]. *)
Fixpoint endswith (c : ascii) (s : string) : bool :=
  match s with
  | EmptyString => false
  | String a EmptyString => Ascii.eqb a c
  | String _ rest => endswith c rest
  end.

(** The ASCII characters [str.isspace] accepts. *)
Definition isspace (a : ascii) : bool :=
  let n := Z.of_nat (nat_of_ascii a) in
  ((9 <=? n) && (n <=? 13)) || ((28 <=? n) && (n <=? 32)).

Fixpoint lstrip (s : string) : string :=
  match s with
  | String a rest => if isspace a then lstrip rest else s
  | EmptyString => EmptyString
  end.

Fixpoint rstrip (s : string) : string :=
  match s with
  | EmptyString => EmptyString
  | String a rest =>
      match rstrip rest with
      | EmptyString => if isspace a then EmptyString else String a EmptyString
      | r => String a r
      end
  end.

(** [s.strip()]. *)
Definition strip (s : string) : string := rstrip (lstrip s).

End PyStr.

(** ** POSIX paths ([os.path] on the platforms the client targets) *)

Module PosixPath.

Definition sep : ascii := "/"%char.

(** [posixpath.basename]: [i = p.rfind('/') + 1; return p[i:]]. *)
Definition basename (p : string) : string :=
  PyStr.slice_from (PyStr.rfind sep p + 1) p.

(** [posixpath.join(a, b)] for two components. *)
Definition join (a b : string) : string :=
  if PyStr.startswith sep b then b
  else if (String.eqb a "" || PyStr.endswith sep a)%bool then a ++ b
  else a ++ "/" ++ b.

End PosixPath.

(** ** Exceptions *)

Inductive exn_class :=
| TypeError
| IOError              (* alias of OSError *)
| FileNotFoundError    (* subclass of OSError *)
| FileExistsError      (* subclass of OSError *)
| PermissionError      (* subclass of OSError *)
| ValueError
| StopIteration
| SSHException.

Record exn := Exn { exn_cls : exn_class; exn_msg : string }.

#[global] Instance exn_class_eq_dec : EqDecision exn_class.
Proof. solve_decision. Defined.

#[global] Instance exn_eq_dec : EqDecision exn.
Proof. solve_decision. Defined.

(** What [except IOError] catches: [OSError] and its subclasses. *)
Definition is_IOError (e : exn) : bool :=
  match exn_cls e with
  | IOError | FileNotFoundError | FileExistsError | PermissionError => true
  | _ => false
  end.

Inductive result (A : Type) :=
| Ok (a : A)
| Raise (e : exn).
Arguments Ok {A} a.
Arguments Raise {A} e.

Definition is_ok {A} (r : result A) : bool :=
  match r with Ok _ => true | Raise _ => false end.

(** ** What a tree walk sees

    The entries of a remote directory as [walktree] meets them: regular
    files, directories with their own entries, entries of any other type,
    and directories whose listing raises. *)

#[warnings="-register-all"]
Inductive node :=
| File
| Special
| Dir (entries : list (string * node))
| Unreadable (e : exn).

Abbreviation forest := (list (string * node)).

(** ** Calls that leave the process

    The methods of the [pysftp] connection the client uses, and the two
    local operations of [cp] ([os.mkdir], [shutil.rmtree]). *)

Inductive call :=
| Listdir (remotepath : option string)
| Chmod (remotepath : string) (mode : Z)
| Isdir (remotepath : string)
| Isfile (remotepath : string)
| Exists (remotepath : string)
| Walktree (remotepath : string)
| Remove (remotepath : string)
| Rmdir (remotepath : string)
| Mkdir (remotepath : string) (mode : option Z)
| Makedirs (remotepath : string) (mode : Z)
| Get (remotepath localpath : string)
| Put (localpath : string) (remotepath : option string) (preserve_mtime : bool)
| Get_r (remotedir localdir : string) (preserve_mtime : bool)
| Put_r (localdir remotedir : string) (preserve_mtime : bool)
| OsMkdir (path : string)
| Rmtree (path : string).

#[global] Instance call_eq_dec : EqDecision call.
Proof. solve_decision. Defined.


(** Calls that change the remote side. *)
Definition is_remote_write (c : call) : bool :=
  match c with
  | Chmod _ _ | Remove _ | Rmdir _ | Mkdir _ _ | Makedirs _ _
  | Put _ _ _ | Put_r _ _ _ => true
  | _ => false
  end.

(** Calls that delete on the remote side. *)
Definition is_deletion (c : call) : bool :=
  match c with
  | Remove _ | Rmdir _ => true
  | _ => false
  end.

(** Recursive transfers. *)
Definition is_transfer (c : call) : bool :=
  match c with
  | Get _ _ | Put _ _ _ | Get_r _ _ _ | Put_r _ _ _ => true
  | _ => false
  end.

(** ** The remote filesystem facade

    The operations of an established [pysftp.Connection], over a remote
    state [R] the client never looks into.  The three predicates never
    raise ([pysftp] answers [False] when the [stat] fails); every other
    operation returns normally or raises, and may change the remote state
    either way.  [fa_walk] is the subtree [walktree] enumerates below a
    path, entries in the order [listdir] gives them. *)

Class Facade (R : Type) := {
  fa_isdir : string -> R -> bool;
  fa_isfile : string -> R -> bool;
  fa_exists : string -> R -> bool;
  fa_listdir : option string -> R -> result (list string) * R;
  fa_walk : string -> R -> result forest * R;
  fa_chmod : string -> Z -> R -> result unit * R;
  fa_remove : string -> R -> result unit * R;
  fa_rmdir : string -> R -> result unit * R;
  fa_mkdir : string -> option Z -> R -> result unit * R;
  fa_makedirs : string -> Z -> R -> result unit * R;
  fa_get : string -> string -> R -> result unit * R;
  fa_put : string -> option string -> bool -> R -> result unit * R;
  fa_get_r : string -> string -> bool -> R -> result unit * R;
  fa_put_r : string -> string -> bool -> R -> result unit * R;
  (** A directory that was removed is no longer a directory. *)
  fa_rmdir_gone : forall p r r',
    fa_rmdir p r = (Ok tt, r') -> fa_isdir p r' = false
}.

(** ** The local host

    What the client asks of the local machine without changing it, and the
    faults the operating system may answer [os.mkdir] and [shutil.rmtree]
    with, besides the ones the local state itself decides. *)

Record Host := {
  gettempdir : string;                        (* tempfile.gettempdir() *)
  expanduser : string -> string;              (* os.path.expanduser *)
  os_path_isfile : string -> bool;            (* os.path.isfile *)
  os_path_isdir : string -> bool;             (* os.path.isdir *)
  py_int : string -> option Z;                (* int(s); None: ValueError *)
  ntpath_split : string -> string * string;   (* ntpath.split *)
  ntpath_basename : string -> string;         (* ntpath.basename *)
  os_fault : call -> option exn
}.

Definition DOWNLOADS_DIRECTORY : string := "downloads".

(** ** The client *)

Section Client.

Context {R : Type} `{!Facade R} (host : Host).

(** What a command can change: the remote side, the local directories the
    client itself makes and removes, the history file ([None]: it does not
    exist), and the log of the calls made so far. *)
Record world := World {
  remote : R;
  local_dirs : gset string;
  history_file : option string;
  calls : list call
}.

Definition M (A : Type) : Type := world -> result A * world.

Definition ret {A} (a : A) : M A := fun w => (Ok a, w).

Definition raise {A} (e : exn) : M A := fun w => (Raise e, w).

Definition bind {A B} (m : M A) (k : A -> M B) : M B :=
  fun w =>
    match m w with
    | (Ok a, w') => k a w'
    | (Raise e, w') => (Raise e, w')
    end.

(** [try: m  except IOError: pass]. *)
Definition try_except_IOError (m : M unit) : M unit :=
  fun w =>
    match m w with
    | (Raise e, w') => if is_IOError e then (Ok tt, w') else (Raise e, w')
    | r => r
    end.

Notation "x <- m ;; k" := (bind m (fun x => k))
  (at level 100, m at next level, right associativity).
Notation "m ;; k" := (bind m (fun _ => k))
  (at level 100, right associativity).

(** [for x in xs: body(x)], with the loop's local state passed along. *)
Fixpoint for_each {A S} (body : A -> S -> M S) (xs : list A) (s : S) : M S :=
  match xs with
  | [] => ret s
  | x :: rest => s' <- body x s ;; for_each body rest s'
  end.

(** *** Calls on the connection *)

Definition log_call (c : call) (w : world) : world :=
  World (remote w) (local_dirs w) (history_file w) (calls w ++ [c]).

Definition conn_query (c : call) (q : R -> bool) : M bool :=
  fun w => (Ok (q (remote w)), log_call c w).

Definition conn_call {A} (c : call) (op : R -> result A * R) : M A :=
  fun w =>
    let '(r, rem) := op (remote w) in
    (r, World rem (local_dirs w) (history_file w) (calls w ++ [c])).

Definition conn_isdir (p : string) : M bool := conn_query (Isdir p) (fa_isdir p).
Definition conn_isfile (p : string) : M bool := conn_query (Isfile p) (fa_isfile p).
Definition conn_exists (p : string) : M bool := conn_query (Exists p) (fa_exists p).
Definition conn_listdir (p : option string) : M (list string) :=
  conn_call (Listdir p) (fa_listdir p).
Definition conn_chmod (p : string) (mode : Z) : M unit :=
  conn_call (Chmod p mode) (fa_chmod p mode).
Definition conn_remove (p : string) : M unit := conn_call (Remove p) (fa_remove p).
Definition conn_rmdir (p : string) : M unit := conn_call (Rmdir p) (fa_rmdir p).
Definition conn_mkdir (p : string) (mode : option Z) : M unit :=
  conn_call (Mkdir p mode) (fa_mkdir p mode).
Definition conn_makedirs (p : string) (mode : Z) : M unit :=
  conn_call (Makedirs p mode) (fa_makedirs p mode).
Definition conn_get (rp lp : string) : M unit := conn_call (Get rp lp) (fa_get rp lp).
Definition conn_put (lp : string) (rp : option string) (pm : bool) : M unit :=
  conn_call (Put lp rp pm) (fa_put lp rp pm).
Definition conn_get_r (rd ld : string) (pm : bool) : M unit :=
  conn_call (Get_r rd ld pm) (fa_get_r rd ld pm).
Definition conn_put_r (ld rd : string) (pm : bool) : M unit :=
  conn_call (Put_r ld rd pm) (fa_put_r ld rd pm).

(** [pysftp.Connection.walktree]: for every entry of the listing, in
    order, [dcallback] and then the walk of the entry when it is a
    directory, [fcallback] when it is a regular file, [ucallback]
    otherwise.  The callbacks close over local variables of the caller:
    that state [S] is passed along.  The listing is the one taken when
    the walk starts; the callbacks [rmdir] passes delete entries the walk
    has already met, or append to a list. *)
Section Walk.
Context {S : Type} (fcallback dcallback ucallback : string -> S -> M S).

Fixpoint walk_entries (visit : string -> node -> S -> M S)
    (remotepath : string) (es : forest) (s : S) : M S :=
  match es with
  | [] => ret s
  | (entry, n) :: rest =>
      s' <- visit (PosixPath.join remotepath entry) n s ;;
      walk_entries visit remotepath rest s'
  end.

Fixpoint walk_node (pathname : string) (n : node) (s : S) : M S :=
  match n with
  | Dir es =>
      s' <- dcallback pathname s ;;
      walk_entries walk_node pathname es s'
  | Unreadable e =>
      _ <- dcallback pathname s ;;
      raise e
  | File => fcallback pathname s
  | Special => ucallback pathname s
  end.

Definition conn_walktree (remotepath : string) (s : S) : M S :=
  es <- conn_call (Walktree remotepath) (fa_walk remotepath) ;;
  walk_entries walk_node remotepath es s.
End Walk.

(** *** Local operations *)

(** [os.mkdir(path)]. *)
Definition os_mkdir (path : string) : M unit :=
  fun w =>
    let w' := log_call (OsMkdir path) w in
    match os_fault host (OsMkdir path) with
    | Some e => (Raise e, w')
    | None =>
        if decide (path ∈ local_dirs w)
        then (Raise (Exn FileExistsError path), w')
        else (Ok tt, World (remote w') ({[ path ]} ∪ local_dirs w')
                           (history_file w') (calls w'))
    end.

(** [shutil.rmtree(path)]. *)
Definition shutil_rmtree (path : string) : M unit :=
  fun w =>
    let w' := log_call (Rmtree path) w in
    match os_fault host (Rmtree path) with
    | Some e => (Raise e, w')
    | None =>
        if decide (path ∈ local_dirs w)
        then (Ok tt, World (remote w') (local_dirs w' ∖ {[ path ]})
                           (history_file w') (calls w'))
        else (Raise (Exn FileNotFoundError path), w')
    end.

(** [with open(HISTORY_FILE, "a") as f: f.write(text)]; the file is made
    when it does not exist. *)
Definition history_append (text : string) : M unit :=
  fun w =>
    (Ok tt, World (remote w) (local_dirs w)
                  (Some (default "" (history_file w) ++ text)) (calls w)).

(** *** The commands *)

Definition HISTORY_NEWLINE : string := String "010"%char EmptyString.

(** What a command returns: [None], the list [ls] gives, the text
    [history] gives. *)
Inductive pyval :=
| PyNone
| PyList (names : list string)
| PyText (text : string).

Definition len_str (args : list string) : string :=
  PyStr.str_of_nat (length args).

(** The [log_history] decorator: the line is written, then the command
    runs. *)
Definition log_history (name : string) (func : list string -> M pyval)
    (args : list string) : M pyval :=
  (if (0 <? length args)%nat
   then history_append (name ++ " " ++ PyStr.join " " args ++ HISTORY_NEWLINE)
   else history_append (name ++ HISTORY_NEWLINE)) ;;
  func args.

(** [history]: not decorated. *)
Definition history (args : list string) : M pyval :=
  if negb (length args =? 0)%nat
  then raise (Exn TypeError
                ("history takes exactly zero arguments (" ++ len_str args ++ " given)"))
  else fun w =>
    (Ok (PyText (match history_file w with
                 | Some text => PyStr.strip text
                 | None => ""
                 end)), w).

Definition ls_body (args : list string) : M pyval :=
  match args with
  | [] => results <- conn_listdir None ;; ret (PyList results)
  | [a0] => results <- conn_listdir (Some a0) ;; ret (PyList results)
  | _ => raise (Exn TypeError
                  ("ls() takes exactly zero or one arguments (" ++ len_str args ++ " given)"))
  end.

Definition chmod_body (args : list string) : M pyval :=
  match args with
  | [a0; a1] =>
      match py_int host a1 with
      | Some mode => conn_chmod a0 mode ;; ret PyNone
      | None => raise (Exn ValueError
                        ("invalid literal for int() with base 10: '" ++ a1 ++ "'"))
      end
  | _ => raise (Exn TypeError
                  ("chmod() takes exactly two arguments (" ++ len_str args ++ " given)"))
  end.

Definition rmdir_body (args : list string) : M pyval :=
  match args with
  | [a0] =>
      isdir <- conn_isdir a0 ;;
      if isdir then
        dirs <- conn_walktree
                  (fun p dirs => conn_remove p ;; ret dirs)
                  (fun p dirs => ret (dirs ++ [p])%list)
                  (fun p dirs => conn_remove p ;; ret dirs)
                  a0 [] ;;
        for_each (fun dir _ => conn_rmdir dir) (rev dirs) tt ;;
        conn_rmdir a0 ;;
        ret PyNone
      else raise (Exn TypeError ("Error: '" ++ a0 ++ "' is not a directory"))
  | _ => raise (Exn TypeError
                  ("rmdir() takes exactly one argument (" ++ len_str args ++ " given)"))
  end.

Definition rm_usage : string := "Usage: rm [filename | path/to/filename]".

Definition rm_body (args : list string) : M pyval :=
  match args with
  | [a0] =>
      isfile <- conn_isfile a0 ;;
      if isfile then conn_remove a0 ;; ret PyNone
      else raise (Exn TypeError rm_usage)
  | _ => raise (Exn TypeError rm_usage)
  end.

Definition mkdir_usage : string := "Usage: mkdir [dirname | path/to/dirname]".

(** The literal [775] of [mode = 775]. *)
Definition mkdir_mode : Z := 775.

Definition mkdir_body (args : list string) : M pyval :=
  match args with
  | [a0] =>
      if negb (PyStr.find "/"%char a0 =? -1)
      then conn_makedirs a0 mkdir_mode ;; ret PyNone
      else conn_mkdir a0 (Some mkdir_mode) ;; ret PyNone
  | _ => raise (Exn TypeError mkdir_usage)
  end.

Definition get_body (args : list string) : M pyval :=
  if ((length args <? 1) || (2 <? length args))%nat
  then raise (Exn TypeError
                ("get() takes 1 or 2 arguments (" ++ len_str args ++ " given)"))
  else
    let a0 := nth 0 args "" in
    isfile <- conn_isfile a0 ;;
    if isfile then
      match args with
      | [_] =>
          let '(head, tail) := ntpath_split host a0 in
          let remote_file :=
            if String.eqb tail "" then ntpath_basename host head else tail in
          let localpath := PosixPath.join DOWNLOADS_DIRECTORY remote_file in
          conn_get a0 localpath ;; ret PyNone
      | [_; a1] => conn_get a0 (expanduser host a1) ;; ret PyNone
      | _ => ret PyNone
      end
    else raise (Exn IOError ("The remote path '" ++ a0 ++ "' is not a file")).

(** The loop of [put] over [iter(args)]; [next(iter_args)] takes the
    argument after [-t] out of the iteration. *)
Fixpoint put_loop (target : option string) (iter_args : list string) : M unit :=
  match iter_args with
  | [] => ret tt
  | a :: rest =>
      let arg := expanduser host a in
      if String.eqb arg "-t" then
        match rest with
        | [] => raise (Exn StopIteration "")
        | t :: rest' => put_loop (Some t) rest'
        end
      else if os_path_isfile host arg then
        match target with
        | Some tgt =>
            try_except_IOError (conn_mkdir tgt None) ;;
            conn_put arg (Some (tgt ++ "/" ++ PosixPath.basename arg)) true ;;
            put_loop target rest
        | None =>
            conn_put arg None true ;;
            put_loop target rest
        end
      else if os_path_isdir host arg then
        raise (Exn IOError "Cannot put directories")
      else raise (Exn FileNotFoundError "couldn't find the requested file")
  end.

Definition put_body (args : list string) : M pyval :=
  put_loop None args ;; ret PyNone.

Definition ls := log_history "ls" ls_body.
Definition chmod := log_history "chmod" chmod_body.
Definition rmdir := log_history "rmdir" rmdir_body.
Definition rm := log_history "rm" rm_body.
Definition mkdir := log_history "mkdir" mkdir_body.
Definition get := log_history "get" get_body.
Definition put := log_history "put" put_body.

(** The staging directory of [cp]:
    [tempfile.gettempdir() + '/' + basename(args[0])]. *)
Definition tmp_d (src : string) : string :=
  gettempdir host ++ "/" ++ PosixPath.basename src.

(** [cp]: not decorated.  Its [logging.debug] lines only write to the log
    and are left out. *)
Definition cp (args : list string) : M pyval :=
  match args with
  | [a0; a1] =>
      dst_exists <- conn_exists a1 ;;
      if negb dst_exists then
        os_mkdir (tmp_d a0) ;;
        conn_get_r a0 (tmp_d a0) true ;;
        conn_put_r (tmp_d a0 ++ "/" ++ PosixPath.basename a0) a1 true ;;
        shutil_rmtree (tmp_d a0) ;;
        ret PyNone
      else raise (Exn IOError ("mkdir: " ++ a1 ++ ": File exists"))
  | _ => raise (Exn TypeError
                  ("cp() takes exactly two arguments (" ++ len_str args ++ " given)"))
  end.

(** The command names of the table in the specification, and the method
    each one runs. *)
Inductive verb := Vls | Vchmod | Vrmdir | Vrm | Vmkdir | Vget | Vput | Vcp | Vhistory.

Definition execute (v : verb) : list string -> M pyval :=
  match v with
  | Vls => ls
  | Vchmod => chmod
  | Vrmdir => rmdir
  | Vrm => rm
  | Vmkdir => mkdir
  | Vget => get
  | Vput => put
  | Vcp => cp
  | Vhistory => history
  end.

End Client.

Arguments World {R} _ _ _ _.

(** ** The rest of the class: liveness, bootstrap, sessions *)

(** A host key: the key type and the key itself. *)
Record hostkey := HostKey { key_name : string; key_data : string }.

#[global] Instance hostkey_eq_dec : EqDecision hostkey.
Proof. solve_decision. Defined.

(** The keyword arguments [initiate_connection] passes to
    [pysftp.Connection]; [None] is a key that is not in the dictionary,
    and for [arg_hostkeys] a [cnopts] whose [hostkeys] is [None] (the server's
    key is not checked). *)
Record connect_args := ConnectArgs {
  arg_host : string;
  arg_username : string;
  arg_hostkeys : option (gmap string hostkey);
  arg_password : option string;
  arg_private_key : option string;
  arg_private_key_pass : option string
}.

(** The fields [__init__] stores. *)
Record sftp_fields := Fields {
  hostname : string;
  username : string;
  password : option string;
  private_key_password : option string
}.

(** [ssh_exception.BadAuthenticationType], a subclass of
    [paramiko.SSHException], as [initiate_connection] raises it. *)
Definition BadAuthenticationType : exn :=
  Exn SSHException "No supported authentication methods available".

Section Session.

Context {R : Type} `{!Facade R} (host : Host).

Notation "x <- m ;; k" := (bind m (fun x => k))
  (at level 100, m at next level, right associativity).
Notation "m ;; k" := (bind m (fun _ => k))
  (at level 100, right associativity).

(** [is_connected]: [True if self.connection.listdir() else False]. *)
Definition is_connected : M (R:=R) bool :=
  results <- conn_listdir None ;;
  ret (match results with [] => false | _ :: _ => true end).

(** [ping]. *)
Definition ping : M (R:=R) string :=
  results <- conn_listdir None ;;
  ret (match results with [] => "nothing happened" | _ :: _ => "pong" end).


(** [pysftp.Connection] called with the arguments: the established
    connection (its remote state) with the server's key, or what it
    raises. *)
Variable connect : connect_args -> result (R * hostkey).

(** The private key [initiate_connection] falls back to. *)
Definition ssh_key : string := expanduser host "~" ++ "/.ssh/id_rsa".

(** [initiate_connection] up to the connection itself: the options (the
    host keys of [known_hosts] are dropped from them when they have no key for
    the host) and the authentication the parameters select. *)
Definition connection_args (self : sftp_fields)
    (known_hosts : gmap string hostkey) : result connect_args :=
  let cnopts_hostkeys :=
    match known_hosts !! hostname self with
    | None => None
    | Some _ => Some known_hosts
    end in
  match password self with
  | Some pw =>
      Ok (ConnectArgs (hostname self) (username self) cnopts_hostkeys
                      (Some pw) None None)
  | None =>
      if os_path_isfile host ssh_key
      then Ok (ConnectArgs (hostname self) (username self) cnopts_hostkeys
                           None (Some ssh_key) (private_key_password self))
      else Raise BadAuthenticationType
  end.

(** [initiate_connection]: the connection, and the [known_hosts] file it
    leaves.  A [paramiko.SSHException] of the connection is logged and raised
    again; on the first connection to a host the server's key is added and
    saved. *)
Definition initiate_connection (self : sftp_fields)
    (known_hosts : gmap string hostkey)
    : result R * gmap string hostkey :=
  match connection_args self known_hosts with
  | Raise e => (Raise e, known_hosts)
  | Ok args =>
      match connect args with
      | Raise e => (Raise e, known_hosts)
      | Ok (connection, remote_server_key) =>
          match known_hosts !! hostname self with
          | None =>
              (Ok connection,
               <[hostname self := remote_server_key]> known_hosts)
          | Some _ => (Ok connection, known_hosts)
          end
      end
  end.

(** [__init__] after the connection: the downloads directory is made when
    it is not there, the history file removed when it is. *)
Definition init_local : M (R:=R) unit :=
  (fun w =>
     if decide (DOWNLOADS_DIRECTORY ∈ local_dirs w) then ret tt w
     else os_mkdir host DOWNLOADS_DIRECTORY w) ;;
  (fun w => (Ok tt, World (remote w) (local_dirs w) None (calls w))).

(** [__init__]: from the local directories and history file it finds, the
    session it starts (or what it raises, with the local state it leaves),
    and the [known_hosts] file. *)
Definition SFTP_init (self : sftp_fields) (known_hosts : gmap string hostkey)
    (dirs : gset string) (history_text : option string)
    : result world * gset string * option string * gmap string hostkey :=
  match initiate_connection self known_hosts with
  | (Raise e, known') => (Raise e, dirs, history_text, known')
  | (Ok connection, known') =>
      match init_local (World connection dirs history_text []) with
      | (Ok _, w) => (Ok w, local_dirs w, history_file w, known')
      | (Raise e, w) => (Raise e, local_dirs w, history_file w, known')
      end
  end.

End Session.

(** ** A remote filesystem to run the client on

    One implementation of the facade: the remote namespace is a tree below
    the session's working directory, a path is resolved component by
    component, and any call can be made to raise by a fault table (a denied
    permission, a dropped transfer).  File contents, modes and the local side
    of a transfer are not part of this state. *)

Module TreeFS.

Record state := State {
  tree : forest;
  fault : call -> option exn
}.

(** The pieces of a path between its separators. *)
Fixpoint split (s : string) : list string :=
  match s with
  | EmptyString => [EmptyString]
  | String a rest =>
      if Ascii.eqb a PosixPath.sep then EmptyString :: split rest
      else match split rest with
           | h :: t => String a h :: t
           | [] => [String a EmptyString]
           end
  end.

Definition components (p : string) : list string :=
  List.filter (fun c => negb (String.eqb c "" || String.eqb c ".")) (split p).

Fixpoint lookup_entry (name : string) (es : forest) : option node :=
  match es with
  | [] => None
  | (n, x) :: rest => if String.eqb n name then Some x else lookup_entry name rest
  end.

Definition remove_entry (name : string) (es : forest) : forest :=
  List.filter (fun e => negb (String.eqb (fst e) name)) es.

Fixpoint replace_entry (name : string) (x : node) (es : forest) : forest :=
  match es with
  | [] => []
  | (n, y) :: rest =>
      if String.eqb n name then (n, x) :: rest
      else (n, y) :: replace_entry name x rest
  end.

Fixpoint insert_entry (name : string) (x : node) (es : forest) : forest :=
  match es with
  | [] => [(name, x)]
  | (n, y) :: rest =>
      if String.ltb name n then (name, x) :: (n, y) :: rest
      else (n, y) :: insert_entry name x rest
  end.

(** Replaces the entry in place, or inserts it where a sorted listing
    stays sorted. *)
Definition put_entry (name : string) (x : node) (es : forest) : forest :=
  match lookup_entry name es with
  | Some _ => replace_entry name x es
  | None => insert_entry name x es
  end.

Definition set_entry (name : string) (v : option node) (es : forest) : forest :=
  match v with
  | Some x => put_entry name x es
  | None => remove_entry name es
  end.

Fixpoint resolve_node (cs : list string) (n : node) : option node :=
  match cs with
  | [] => Some n
  | c :: cs' =>
      match n with
      | Dir es =>
          match lookup_entry c es with
          | Some child => resolve_node cs' child
          | None => None
          end
      | _ => None
      end
  end.

Definition resolve (p : string) (st : state) : option node :=
  resolve_node (components p) (Dir (tree st)).

(** Changes the entry a path names: [f] is given the entry ([None] when
    there is none) and answers the new one ([None] to delete it). *)
Fixpoint alter_node (f : option node -> result (option node))
    (cs : list string) (n : node) : result node :=
  match cs, n with
  | [], _ => Raise (Exn IOError "Failure")
  | c :: cs', Dir es =>
      match cs' with
      | [] =>
          match f (lookup_entry c es) with
          | Ok v => Ok (Dir (set_entry c v es))
          | Raise e => Raise e
          end
      | _ :: _ =>
          match lookup_entry c es with
          | Some child =>
              match alter_node f cs' child with
              | Ok child' => Ok (Dir (put_entry c child' es))
              | Raise e => Raise e
              end
          | None => Raise (Exn FileNotFoundError c)
          end
      end
  | c :: _, _ => Raise (Exn FileNotFoundError c)
  end.

Definition alter (f : option node -> result (option node)) (p : string)
    (st : state) : result unit * state :=
  match alter_node f (components p) (Dir (tree st)) with
  | Ok (Dir es) => (Ok tt, State es (fault st))
  | Ok _ => (Raise (Exn IOError "Failure"), st)
  | Raise e => (Raise e, st)
  end.

Definition with_fault {A} (c : call) (op : state -> result A * state)
    (st : state) : result A * state :=
  match fault st c with
  | Some e => (Raise e, st)
  | None => op st
  end.

Definition no_such_file (p : string) : exn := Exn FileNotFoundError p.

Definition isdir (p : string) (st : state) : bool :=
  match resolve p st with
  | Some (Dir _) | Some (Unreadable _) => true
  | _ => false
  end.

Definition isfile (p : string) (st : state) : bool :=
  match resolve p st with
  | Some File => true
  | _ => false
  end.

Definition exists_ (p : string) (st : state) : bool :=
  match resolve p st with
  | Some _ => true
  | None => false
  end.

Definition entries_at (p : string) (st : state) : result forest * state :=
  match resolve p st with
  | Some (Dir es) => (Ok es, st)
  | Some (Unreadable e) => (Raise e, st)
  | _ => (Raise (no_such_file p), st)
  end.

Definition listdir (p : option string) : state -> result (list string) * state :=
  with_fault (Listdir p) (fun st =>
    match entries_at (default "." p) st with
    | (Ok es, st') => (Ok (map fst es), st')
    | (Raise e, st') => (Raise e, st')
    end).

Definition walk (p : string) : state -> result forest * state :=
  with_fault (Walktree p) (entries_at p).

Definition chmod (p : string) (mode : Z) : state -> result unit * state :=
  with_fault (Chmod p mode) (fun st =>
    if exists_ p st then (Ok tt, st) else (Raise (no_such_file p), st)).

Definition remove (p : string) : state -> result unit * state :=
  with_fault (Remove p) (alter (fun entry =>
    match entry with
    | Some File | Some Special => Ok None
    | Some _ => Raise (Exn IOError "Failure")
    | None => Raise (no_such_file p)
    end) p).

Definition rmdir (p : string) : state -> result unit * state :=
  with_fault (Rmdir p) (alter (fun entry =>
    match entry with
    | Some (Dir []) => Ok None
    | Some (Unreadable e) => Raise e
    | Some _ => Raise (Exn IOError "Failure")
    | None => Raise (no_such_file p)
    end) p).

Definition mkdir (p : string) (mode : option Z) : state -> result unit * state :=
  with_fault (Mkdir p mode) (alter (fun entry =>
    match entry with
    | None => Ok (Some (Dir []))
    | Some _ => Raise (Exn IOError "Failure")
    end) p).

Fixpoint makedirs_node (cs : list string) (n : node) : result node :=
  match cs, n with
  | [], Dir _ => Ok n
  | c :: cs', Dir es =>
      match makedirs_node cs' (default (Dir []) (lookup_entry c es)) with
      | Ok child' => Ok (Dir (put_entry c child' es))
      | Raise e => Raise e
      end
  | _, _ => Raise (Exn IOError "Failure")
  end.

Definition makedirs (p : string) (mode : Z) : state -> result unit * state :=
  with_fault (Makedirs p mode) (fun st =>
    match makedirs_node (components p) (Dir (tree st)) with
    | Ok (Dir es) => (Ok tt, State es (fault st))
    | Ok _ => (Raise (Exn IOError "Failure"), st)
    | Raise e => (Raise e, st)
    end).

Definition get (rp lp : string) : state -> result unit * state :=
  with_fault (Get rp lp) (fun st =>
    if isfile rp st then (Ok tt, st) else (Raise (no_such_file rp), st)).

Definition put (lp : string) (rp : option string) (pm : bool)
    : state -> result unit * state :=
  with_fault (Put lp rp pm) (alter (fun entry =>
    match entry with
    | None | Some File => Ok (Some File)
    | Some _ => Raise (Exn IOError "Failure")
    end) (default (PosixPath.basename lp) rp)).

Definition get_r (rd ld : string) (pm : bool) : state -> result unit * state :=
  with_fault (Get_r rd ld pm) (fun st =>
    if isdir rd st then (Ok tt, st) else (Raise (no_such_file rd), st)).

Definition put_r (ld rd : string) (pm : bool) : state -> result unit * state :=
  with_fault (Put_r ld rd pm) (fun st => (Ok tt, st)).

(** *** Trees a recursive removal is run on *)

(** A name a listing can hold: not empty, not [.], without separator. *)
Definition good_name (name : string) : bool :=
  negb (String.eqb name "" || String.eqb name ".")
  && negb (existsb (Ascii.eqb PosixPath.sep) (list_ascii_of_string name)).

(** Listings of readable directories, with good names, no name twice. *)
Inductive wf_node : node -> Prop :=
| wf_File : wf_node File
| wf_Special : wf_node Special
| wf_Dir es : wf_forest es -> wf_node (Dir es)
with wf_forest : forest -> Prop :=
| wf_nil : wf_forest []
| wf_cons name n es :
    good_name name = true ->
    ~ In name (map fst es) ->
    wf_node n ->
    wf_forest es ->
    wf_forest ((name, n) :: es).

(** The tree with the subtree at a path replaced. *)
Fixpoint replace_at (cs : list string) (m : node) (n : node) : node :=
  match cs with
  | [] => m
  | c :: cs' =>
      match n with
      | Dir es =>
          match lookup_entry c es with
          | Some child => Dir (put_entry c (replace_at cs' m child) es)
          | None => n
          end
      | _ => n
      end
  end.

Definition entries_of (n : node) : forest :=
  match n with
  | Dir es => es
  | _ => []
  end.

(** The tree with the entry a path names taken out. *)
Fixpoint remove_at (cs : list string) (n : node) : node :=
  match cs with
  | [] => n
  | [c] =>
      match n with
      | Dir es => Dir (remove_entry c es)
      | _ => n
      end
  | c :: cs' =>
      match n with
      | Dir es =>
          match lookup_entry c es with
          | Some child => Dir (put_entry c (remove_at cs' child) es)
          | None => n
          end
      | _ => n
      end
  end.

(** What a walk that removes the files leaves of a listing: the
    directories. *)
Fixpoint skeleton_node (n : node) : option node :=
  match n with
  | Dir es =>
      Some (Dir ((fix entries (es : forest) : forest :=
                    match es with
                    | [] => []
                    | (name, c) :: rest =>
                        match skeleton_node c with
                        | Some c' => (name, c') :: entries rest
                        | None => entries rest
                        end
                    end) es))
  | Unreadable e => Some (Unreadable e)
  | File | Special => None
  end.

Fixpoint skeleton (es : forest) : forest :=
  match es with
  | [] => []
  | (name, c) :: rest =>
      match skeleton_node c with
      | Some c' => (name, c') :: skeleton rest
      | None => skeleton rest
      end
  end.

(** What is left of one entry when the files are gone. *)
Definition skeleton_entry (name : string) (n : node) : forest :=
  match skeleton_node n with
  | Some c => [(name, c)]
  | None => []
  end.

(** The root listing once the listing at [cs] has become [es0]. *)
Definition after (cs : list string) (es0 root : forest) : forest :=
  entries_of (replace_at cs (Dir es0) (Dir root)).

End TreeFS.

(** ** A session to run

    A local host without faults, whose temporary directory is [/tmp], and
    the remote tree [root/{a.txt, sub/{b.txt}}] of the specification's
    scenarios. *)

Module Scenario.

Definition no_fault : call -> option exn := fun _ => None.

Fixpoint digits_value (s : string) (acc : Z) : option Z :=
  match s with
  | EmptyString => Some acc
  | String a rest =>
      let d := Z.of_nat (nat_of_ascii a) - 48 in
      if (0 <=? d) && (d <=? 9) then digits_value rest (10 * acc + d) else None
  end.

Definition host : Host := {|
  gettempdir := "/tmp";
  expanduser := fun p => p;
  os_path_isfile := fun p => String.eqb p "notes.txt";
  os_path_isdir := fun p => String.eqb p "photos";
  py_int := fun s => if String.eqb s "" then None else digits_value s 0;
  ntpath_split := fun p =>
    (PyStr.slice_from 0 (substring 0 (Z.to_nat (PyStr.rfind "/"%char p)) p),
     PosixPath.basename p);
  ntpath_basename := PosixPath.basename;
  os_fault := no_fault
|}.

Definition root_tree : forest :=
  [("root", Dir [("a.txt", File); ("sub", Dir [("b.txt", File)])])].

Definition session (t : forest) (f : call -> option exn) : world :=
  World (TreeFS.State t f) ∅ None [].

Definition start : world := session root_tree no_fault.

(** A session in which the recursive download breaks off. *)
Definition download_fails : call -> option exn :=
  fun c =>
    match c with
    | Get_r _ _ _ => Some (Exn SSHException "Connection reset by peer")
    | _ => None
    end.

(** A session in which the recursive upload breaks off. *)
Definition upload_fails : call -> option exn :=
  fun c =>
    match c with
    | Put_r _ _ _ => Some (Exn PermissionError "Permission denied")
    | _ => None
    end.

End Scenario.

(** ** Vocabulary of the statements *)

(** The path contains a separator. *)
Definition has_slash (p : string) : bool :=
  existsb (Ascii.eqb PosixPath.sep) (list_ascii_of_string p).

(** The value of a numeral written in octal, most significant digit
    first. *)
Definition of_octal (digits : list Z) : Z :=
  fold_left (fun acc d => 8 * acc + d) digits 0.



(** The [TypeError] each command raises on a wrong argument count. *)
Definition usage_error (v : verb) (args : list string) : exn :=
  let given := (" (" ++ len_str args ++ " given)")%string in
  Exn TypeError
    match v with
    | Vls => "ls() takes exactly zero or one arguments" ++ given
    | Vchmod => "chmod() takes exactly two arguments" ++ given
    | Vrmdir => "rmdir() takes exactly one argument" ++ given
    | Vrm => rm_usage
    | Vmkdir => mkdir_usage
    | Vget => "get() takes 1 or 2 arguments" ++ given
    | Vput => ""
    | Vcp => "cp() takes exactly two arguments" ++ given
    | Vhistory => "history takes exactly zero arguments" ++ given
    end.

(** The commands that carry the [log_history] decorator. *)
Definition decorated (v : verb) : bool :=
  match v with
  | Vcp | Vhistory => false
  | _ => true
  end.

Definition verb_name (v : verb) : string :=
  match v with
  | Vls => "ls"
  | Vchmod => "chmod"
  | Vrmdir => "rmdir"
  | Vrm => "rm"
  | Vmkdir => "mkdir"
  | Vget => "get"
  | Vput => "put"
  | Vcp => "cp"
  | Vhistory => "history"
  end.

(** A record of the history log: the verb followed by the space-joined
    arguments, and the line that holds it in the file. *)
Definition history_record (v : verb) (args : list string) : string :=
  match args with
  | [] => verb_name v
  | _ => verb_name v ++ " " ++ PyStr.join " " args
  end.

Definition history_line (v : verb) (args : list string) : string :=
  history_record v args ++ HISTORY_NEWLINE.

(** A computation that leaves the history file as it found it. *)
Definition keeps_history {R A} (m : M (R:=R) A) : Prop :=
  forall w, history_file (snd (m w)) = history_file w.

(** The paths a walk below [remotepath] hands on, in the order it meets
    them, given what it hands on at each entry. *)
Fixpoint walk_paths (visit : string -> node -> list string)
    (remotepath : string) (es : forest) : list string :=
  match es with
  | [] => []
  | (entry, n) :: rest =>
      (visit (PosixPath.join remotepath entry) n
       ++ walk_paths visit remotepath rest)%list
  end.

(** The files (and entries of unknown type) met at and below an entry. *)
Fixpoint files_met (pathname : string) (n : node) : list string :=
  match n with
  | File | Special => [pathname]
  | Dir es => walk_paths files_met pathname es
  | Unreadable _ => []
  end.

(** The directories met at and below an entry, parents first. *)
Fixpoint dirs_met (pathname : string) (n : node) : list string :=
  match n with
  | Dir es => pathname :: walk_paths dirs_met pathname es
  | Unreadable _ => [pathname]
  | File | Special => []
  end.



(** ** Vocabulary of the further statements *)




(** An argument of [put] that names a local file and is not the flag. *)
Definition plain_file (host : Host) (a : string) : bool :=
  negb (String.eqb (expanduser host a) "-t")
  && os_path_isfile host (expanduser host a).

(** The call [put] makes for a plain file when no target is set. *)
Definition put_call (host : Host) (a : string) : call :=
  Put (expanduser host a) None true.

(** What [put] raises at the head of these arguments, if it does: a
    directory, a name that is no local file, the flag as last argument. *)
Definition stopper (host : Host) (rest : list string) : option exn :=
  match rest with
  | [] => None
  | a :: rest' =>
      if String.eqb (expanduser host a) "-t" then
        match rest' with
        | [] => Some (Exn StopIteration "")
        | _ :: _ => None
        end
      else if os_path_isfile host (expanduser host a) then None
      else if os_path_isdir host (expanduser host a)
      then Some (Exn IOError "Cannot put directories")
      else Some (Exn FileNotFoundError "couldn't find the requested file")
  end.

(** The uploads of these files, one after the other, all return. *)
Fixpoint uploads_return {R} `{!Facade R} (host : Host) (files : list string)
    (r : R) : bool :=
  match files with
  | [] => true
  | a :: rest =>
      match fa_put (expanduser host a) None true r with
      | (Ok _, r') => uploads_return host rest r'
      | (Raise _, _) => false
      end
  end.

(** A first connection to run: a user with a password, and a server that
    takes any credentials, shows one key and serves the tree of the
    scenarios. *)
Definition alice : sftp_fields := Fields "sftp.example.org" "alice" (Some "secret") None.

Definition server_key : hostkey := HostKey "ssh-rsa" "AAAAB3NzaC1yc2E".

Definition accepting (cargs : connect_args) : result (TreeFS.state * hostkey) :=
  Ok (TreeFS.State Scenario.root_tree Scenario.no_fault, server_key).

(** * Facts *)

(** ** Python strings and paths *)

Lemma find_from_spec c s : forall i,
  0 <= i ->
  if existsb (Ascii.eqb c) (list_ascii_of_string s)
  then i <= PyStr.find_from c s i
  else PyStr.find_from c s i = -1.
Proof.
  induction s as [|a s IH]; intros i Hi; simpl; [done|].
  rewrite (Ascii.eqb_sym c a).
  destruct (Ascii.eqb a c); simpl; [lia|].
  specialize (IH (i + 1) ltac:(lia)).
  destruct (existsb _ _); lia.
Qed.

Lemma find_has_slash p :
  negb (PyStr.find PosixPath.sep p =? -1) = has_slash p.
Proof.
  unfold PyStr.find, has_slash.
  pose proof (find_from_spec PosixPath.sep p 0 ltac:(lia)) as H.
  destruct (existsb _ _).
  - apply negb_true_iff, Z.eqb_neq. lia.
  - by rewrite H.
Qed.

Lemma string_app_assoc (a b c : string) : (a ++ b) ++ c = a ++ b ++ c.
Proof.
  induction a as [|x a IH]; [done|].
  change (String x ((a ++ b) ++ c) = String x (a ++ b ++ c)).
  by rewrite IH.
Qed.






(** ** The tree filesystem implements the facade *)

Module TreeFSLaws.

Import TreeFS.


Lemma lookup_remove_entry name es :
  lookup_entry name (remove_entry name es) = None.
Proof.
  induction es as [|[n x] es IH]; simpl; [done|].
  destruct (String.eqb n name) eqn:E; simpl; [done|].
  by rewrite E.
Qed.

Lemma lookup_replace_entry name x es :
  is_Some (lookup_entry name es) ->
  lookup_entry name (replace_entry name x es) = Some x.
Proof.
  induction es as [|[n y] es IH]; simpl; intros [v Hv]; [done|].
  destruct (String.eqb n name) eqn:E; simpl; rewrite E; [done|].
  apply IH. by exists v.
Qed.

Lemma lookup_insert_entry name x es :
  lookup_entry name es = None ->
  lookup_entry name (insert_entry name x es) = Some x.
Proof.
  induction es as [|[n y] es IH]; simpl; intros Hnone.
  - by rewrite String.eqb_refl.
  - destruct (String.eqb n name) eqn:E; [done|].
    destruct (String.ltb name n); simpl.
    + by rewrite String.eqb_refl.
    + rewrite E. by apply IH.
Qed.

Lemma lookup_put_entry name x es :
  lookup_entry name (put_entry name x es) = Some x.
Proof.
  unfold put_entry. destruct (lookup_entry name es) as [v|] eqn:E.
  - apply lookup_replace_entry. by exists v.
  - by apply lookup_insert_entry.
Qed.

Lemma alter_node_deleted f cs : forall n n',
  (forall entry v, f entry = Ok v -> v = None) ->
  alter_node f cs n = Ok n' ->
  resolve_node cs n' = None.
Proof.
  induction cs as [|c cs IH]; intros n n' Hf Halter.
  - by destruct n.
  - destruct n as [| |es|e]; try discriminate Halter.
    simpl in Halter. destruct cs as [|c' cs].
    + destruct (f (lookup_entry c es)) as [v|e] eqn:Ef; [|discriminate].
      injection Halter as <-. rewrite (Hf _ _ Ef). simpl.
      by rewrite lookup_remove_entry.
    + destruct (lookup_entry c es) as [child|]; [|discriminate].
      destruct (alter_node f (c' :: cs) child) as [child'|e] eqn:Ec;
        [|discriminate].
      injection Halter as <-.
      change (resolve_node (c :: c' :: cs) (Dir (put_entry c child' es)))
        with (match lookup_entry c (put_entry c child' es) with
              | Some ch => resolve_node (c' :: cs) ch
              | None => None
              end).
      rewrite lookup_put_entry. by apply (IH child).
Qed.

Lemma rmdir_gone p st st' :
  rmdir p st = (Ok tt, st') -> isdir p st' = false.
Proof.
  unfold rmdir, with_fault, alter, isdir, resolve.
  destruct (fault st (Rmdir p)); [discriminate|].
  destruct (alter_node _ (components p) (Dir (tree st))) as [n'|e] eqn:E;
    [|discriminate].
  destruct n' as [| |es|e]; try discriminate.
  intros [= <-]. simpl.
  erewrite alter_node_deleted; [done| |exact E].
  intros entry v. destruct entry as [[| |[|]|]|]; simpl; congruence.
Qed.

#[global] Instance facade : Facade state := {
  fa_isdir := isdir;
  fa_isfile := isfile;
  fa_exists := exists_;
  fa_listdir := listdir;
  fa_walk := walk;
  fa_chmod := chmod;
  fa_remove := remove;
  fa_rmdir := rmdir;
  fa_mkdir := mkdir;
  fa_makedirs := makedirs;
  fa_get := get;
  fa_put := put;
  fa_get_r := get_r;
  fa_put_r := put_r;
  fa_rmdir_gone := rmdir_gone
}.

(** *** Paths and their components *)

Local Arguments Ascii.eqb : simpl never.

Lemma split_nonempty s : split s <> [].
Proof.
  destruct s as [|a s]; simpl; [done|].
  destruct (Ascii.eqb a PosixPath.sep); [done|].
  by destruct (split s).
Qed.

Lemma split_app_sep a b :
  split (a ++ String PosixPath.sep b) = (split a ++ split b)%list.
Proof.
  induction a as [|x a IH].
  - change (split (String PosixPath.sep b) = EmptyString :: split b).
    done.
  - change (split (String x (a ++ String PosixPath.sep b))
            = (split (String x a) ++ split b)%list).
    simpl. rewrite IH.
    destruct (Ascii.eqb x PosixPath.sep); [done|].
    pose proof (split_nonempty a). by destruct (split a).
Qed.

Lemma split_name name :
  existsb (Ascii.eqb PosixPath.sep) (list_ascii_of_string name) = false ->
  split name = [name].
Proof.
  induction name as [|x name IH]; simpl; [done|].
  intros [Hx Hname]%orb_false_iff.
  rewrite (Ascii.eqb_sym x), Hx, IH by done. done.
Qed.

Lemma endswith_sep a :
  PyStr.endswith PosixPath.sep a = true ->
  exists a', a = (a' ++ String PosixPath.sep EmptyString)%string.
Proof.
  induction a as [|x a IH]; simpl; [done|].
  destruct a as [|y a].
  - intros ->%Ascii.eqb_eq. by exists EmptyString.
  - intros [a' ->]%IH. by exists (String x a').
Qed.

Lemma components_app_sep a b :
  components (a ++ String PosixPath.sep b) = (components a ++ components b)%list.
Proof. unfold components. by rewrite split_app_sep, List.filter_app. Qed.

Lemma components_name name :
  good_name name = true -> components name = [name].
Proof.
  unfold good_name, components.
  intros [Hne Hsep%negb_true_iff]%andb_true_iff.
  rewrite split_name by done. simpl. by rewrite Hne.
Qed.

(** The path [walktree] makes for an entry resolves to the entry. *)
Lemma components_join path name :
  good_name name = true ->
  components (PosixPath.join path name) = (components path ++ [name])%list.
Proof.
  intros Hname. pose proof (components_name name Hname) as Hc.
  unfold PosixPath.join.
  assert (PyStr.startswith PosixPath.sep name = false) as ->.
  { unfold good_name in Hname.
    apply andb_true_iff in Hname as [_ Hsep%negb_true_iff].
    destruct name as [|x name]; simpl in *; [done|].
    apply orb_false_iff in Hsep as [Hx _]. by rewrite Ascii.eqb_sym. }
  destruct (String.eqb path "") eqn:Hempty; simpl.
  - apply String.eqb_eq in Hempty as ->. exact Hc.
  - destruct (PyStr.endswith PosixPath.sep path) eqn:Hends.
    + apply endswith_sep in Hends as [a' ->].
      rewrite string_app_assoc.
      change (String PosixPath.sep "" ++ name)%string
        with (String PosixPath.sep name).
      rewrite !components_app_sep, Hc.
      change (components "") with (@nil string). by rewrite app_nil_r.
    + change ("/" ++ name)%string with (String PosixPath.sep name).
      by rewrite components_app_sep, Hc.
Qed.

(** *** Entries of a listing *)

Lemma lookup_entry_absent name es :
  ~ In name (map fst es) -> lookup_entry name es = None.
Proof.
  induction es as [|[n x] es IH]; simpl; intros Hin; [done|].
  destruct (String.eqb n name) eqn:E.
  - apply String.eqb_eq in E. tauto.
  - apply IH. tauto.
Qed.

Lemma lookup_entry_mid name x pre post :
  ~ In name (map fst pre) ->
  lookup_entry name (pre ++ (name, x) :: post) = Some x.
Proof.
  induction pre as [|[n y] pre IH]; simpl; intros Hin.
  - by rewrite String.eqb_refl.
  - destruct (String.eqb n name) eqn:E.
    + apply String.eqb_eq in E. tauto.
    + apply IH. tauto.
Qed.

Lemma remove_entry_absent name es :
  ~ In name (map fst es) -> remove_entry name es = es.
Proof.
  unfold remove_entry.
  induction es as [|[n x] es IH]; simpl; intros Hin; [done|].
  destruct (String.eqb n name) eqn:E; simpl.
  - apply String.eqb_eq in E. tauto.
  - rewrite IH; [done|tauto].
Qed.

Lemma remove_entry_mid name x pre post :
  ~ In name (map fst pre) -> ~ In name (map fst post) ->
  remove_entry name (pre ++ (name, x) :: post) = (pre ++ post)%list.
Proof.
  intros Hpre Hpost. unfold remove_entry.
  rewrite List.filter_app. simpl. rewrite String.eqb_refl. simpl.
  fold (remove_entry name pre) (remove_entry name post).
  by rewrite !remove_entry_absent.
Qed.

Lemma replace_entry_mid name x y pre post :
  ~ In name (map fst pre) ->
  replace_entry name y (pre ++ (name, x) :: post) = (pre ++ (name, y) :: post)%list.
Proof.
  induction pre as [|[n z] pre IH]; simpl; intros Hin.
  - by rewrite String.eqb_refl.
  - destruct (String.eqb n name) eqn:E.
    + apply String.eqb_eq in E. tauto.
    + rewrite IH; [done|tauto].
Qed.

Lemma put_entry_mid name x y pre post :
  ~ In name (map fst pre) ->
  put_entry name y (pre ++ (name, x) :: post) = (pre ++ (name, y) :: post)%list.
Proof.
  intros Hpre. unfold put_entry.
  rewrite lookup_entry_mid by done. by apply replace_entry_mid.
Qed.

Lemma replace_entry_same name x es :
  lookup_entry name es = Some x -> replace_entry name x es = es.
Proof.
  induction es as [|[n y] es IH]; simpl; [done|].
  destruct (String.eqb n name) eqn:E.
  - by intros [= ->].
  - intros Hx. by rewrite IH.
Qed.

Lemma replace_entry_twice name x y es :
  replace_entry name x (replace_entry name y es) = replace_entry name x es.
Proof.
  induction es as [|[n z] es IH]; simpl; [done|].
  destruct (String.eqb n name) eqn:E; simpl; rewrite E; [done|].
  by rewrite IH.
Qed.

Lemma put_entry_same name x es :
  lookup_entry name es = Some x -> put_entry name x es = es.
Proof.
  intros Hx. unfold put_entry. rewrite Hx. by apply replace_entry_same.
Qed.

Lemma put_entry_twice name x y es :
  is_Some (lookup_entry name es) ->
  put_entry name x (put_entry name y es) = put_entry name x es.
Proof.
  intros [v Hv]. unfold put_entry at 1.
  rewrite lookup_put_entry. unfold put_entry. rewrite Hv.
  apply replace_entry_twice.
Qed.

(** *** Subtrees *)

Lemma resolve_node_snoc cs c : forall n,
  resolve_node (cs ++ [c]) n
    = match resolve_node cs n with
      | Some (Dir es) => lookup_entry c es
      | _ => None
      end.
Proof.
  induction cs as [|c0 cs IH]; intros n; simpl.
  - destruct n as [| |es|e]; try done. by destruct (lookup_entry c es).
  - destruct n as [| |es|e]; try done.
    destruct (lookup_entry c0 es); [apply IH|done].
Qed.

Lemma replace_at_dir cs es0 : forall root,
  exists es', replace_at cs (Dir es0) (Dir root) = Dir es'.
Proof.
  destruct cs as [|c cs]; intros root; simpl; [by eexists|].
  destruct (lookup_entry c root); by eexists.
Qed.

Lemma resolve_replace_at cs m : forall n m0,
  resolve_node cs n = Some m0 ->
  resolve_node cs (replace_at cs m n) = Some m.
Proof.
  induction cs as [|c cs IH]; intros n m0; simpl; [done|].
  destruct n as [| |es|e]; try done.
  destruct (lookup_entry c es) as [child|] eqn:Hc; [|done].
  intros Hres. simpl. rewrite lookup_put_entry. by eapply IH.
Qed.

Lemma replace_at_same cs : forall n m,
  resolve_node cs n = Some m -> replace_at cs m n = n.
Proof.
  induction cs as [|c cs IH]; intros n m; simpl; [by intros [= ->]|].
  destruct n as [| |es|e]; try done.
  destruct (lookup_entry c es) as [child|] eqn:Hc; [|done].
  intros Hres. rewrite (IH _ _ Hres). by rewrite put_entry_same.
Qed.

Lemma replace_at_twice cs m1 m2 : forall n m0,
  resolve_node cs n = Some m0 ->
  replace_at cs m2 (replace_at cs m1 n) = replace_at cs m2 n.
Proof.
  induction cs as [|c cs IH]; intros n m0; simpl; [done|].
  destruct n as [| |es|e]; try done.
  destruct (lookup_entry c es) as [child|] eqn:Hc; [|done].
  intros Hres. simpl. rewrite lookup_put_entry.
  rewrite (IH _ _ Hres). by rewrite put_entry_twice.
Qed.

Lemma replace_at_snoc cs c m : forall n es,
  resolve_node cs n = Some (Dir es) ->
  is_Some (lookup_entry c es) ->
  replace_at (cs ++ [c]) m n = replace_at cs (Dir (put_entry c m es)) n.
Proof.
  induction cs as [|c0 cs IH]; intros n es; simpl.
  - intros [= ->] [child ->]. done.
  - destruct n as [| |es0|e]; try done.
    destruct (lookup_entry c0 es0) as [child|] eqn:Hc; [|done].
    intros Hres Hsome. by rewrite (IH _ _ Hres Hsome).
Qed.

Lemma remove_replace_entry name x es :
  remove_entry name (replace_entry name x es) = remove_entry name es.
Proof.
  unfold remove_entry.
  induction es as [|[n y] es IH]; simpl; [done|].
  destruct (String.eqb n name) eqn:E; simpl; rewrite E; simpl; [done|].
  by rewrite IH.
Qed.

Lemma remove_insert_entry name x es :
  remove_entry name (insert_entry name x es) = remove_entry name es.
Proof.
  unfold remove_entry.
  induction es as [|[n y] es IH]; simpl.
  - by rewrite String.eqb_refl.
  - destruct (String.ltb name n); simpl.
    + by rewrite String.eqb_refl.
    + by rewrite IH.
Qed.

Lemma remove_put_entry name x es :
  remove_entry name (put_entry name x es) = remove_entry name es.
Proof.
  unfold put_entry. destruct (lookup_entry name es).
  - apply remove_replace_entry.
  - apply remove_insert_entry.
Qed.

Lemma remove_at_snoc cs c : forall n es,
  resolve_node cs n = Some (Dir es) ->
  remove_at (cs ++ [c]) n = replace_at cs (Dir (remove_entry c es)) n.
Proof.
  induction cs as [|c0 cs IH]; intros n es.
  - simpl. by intros [= ->].
  - simpl. destruct n as [| |es0|e]; try done.
    destruct (lookup_entry c0 es0) as [child|] eqn:Hc; [|done].
    intros Hres. rewrite <- (IH _ _ Hres).
    by destruct (cs ++ [c])%list eqn:Happ; [destruct cs|].
Qed.

(** A change at an entry of a directory is a change of that directory's
    listing. *)
Lemma alter_node_focus f cs c : forall n es,
  resolve_node cs n = Some (Dir es) ->
  alter_node f (cs ++ [c]) n
    = match f (lookup_entry c es) with
      | Ok v => Ok (replace_at cs (Dir (set_entry c v es)) n)
      | Raise e => Raise e
      end.
Proof.
  induction cs as [|c0 cs IH]; intros n es.
  - simpl. by intros [= ->].
  - simpl. destruct n as [| |es0|e]; try done.
    destruct (lookup_entry c0 es0) as [child|] eqn:Hc; [|done].
    intros Hres. rewrite (IH _ _ Hres).
    destruct (cs ++ [c])%list eqn:Happ; [by destruct cs|].
    by destruct (f (lookup_entry c es)).
Qed.

End TreeFSLaws.

(** ** Induction over a listing and what is below it *)

Section NodeInduction.

Variables (P : node -> Prop) (Q : forest -> Prop).
Hypotheses
  (HFile : P File)
  (HSpecial : P Special)
  (HUnreadable : forall e, P (Unreadable e))
  (HDir : forall es, Q es -> P (Dir es))
  (Hnil : Q [])
  (Hcons : forall name n es, P n -> Q es -> Q ((name, n) :: es)).

Fixpoint node_forest_ind (n : node) : P n :=
  match n with
  | File => HFile
  | Special => HSpecial
  | Unreadable e => HUnreadable e
  | Dir es =>
      HDir es
        ((fix entries (es : forest) : Q es :=
            match es with
            | [] => Hnil
            | (name, c) :: rest =>
                Hcons name c rest (node_forest_ind c) (entries rest)
            end) es)
  end.

Lemma forest_node_ind (es : forest) : Q es.
Proof.
  induction es as [|[name n] es IH]; [exact Hnil|].
  apply Hcons; [apply node_forest_ind|exact IH].
Qed.

End NodeInduction.

(** ** The order of a walk *)





(** ** The commands, one by one *)

Section Facts.

Context {R : Type} `{!Facade R} (host : Host).

Local Open Scope list_scope.

Notation "x <- m ;; k" := (bind m (fun x => k))
  (at level 100, m at next level, right associativity).
Notation "m ;; k" := (bind m (fun _ => k))
  (at level 100, right associativity).

Implicit Types (w : world (R:=R)) (p src dst : string) (args : list string).

(** C10: [mkdir] with one argument makes exactly one call on the
    connection, [makedirs] when the path contains a ['/'] and [mkdir] when it
    does not, whatever the state of the session; either way the mode it
    passes is the decimal integer 775, which read as a permission mask is
    octal 1407 and not octal 775. *)
Theorem mkdir_passes_decimal_775 p w :
  calls (snd (mkdir [p] w))
    = calls w ++ [if has_slash p then Makedirs p 775 else Mkdir p (Some 775)]
  /\ mkdir_mode = 775
  /\ mkdir_mode = of_octal [1; 4; 0; 7]
  /\ mkdir_mode <> of_octal [7; 7; 5].
Proof.
  split; [|by vm_compute].
  unfold mkdir, log_history, mkdir_body, bind; simpl.
  rewrite find_has_slash.
  destruct (has_slash p); unfold conn_makedirs, conn_mkdir, conn_call; simpl.
  - by destruct (fa_makedirs p mkdir_mode (remote w)) as [[[]|e] r'].
  - by destruct (fa_mkdir p (Some mkdir_mode) (remote w)) as [[[]|e] r'].
Qed.

(** *** [cp] *)

(** C3: when the destination exists, [cp] with two arguments raises the
    [IOError] that reports it; the only call it has made is the existence
    check, so nothing was written on the remote side, no transfer was
    started and no staging directory was made. *)
Theorem cp_existing_destination src dst w :
  fa_exists dst (remote w) = true ->
  cp host [src; dst] w
    = (Raise (Exn IOError ("mkdir: " ++ dst ++ ": File exists")%string),
       World (remote w) (local_dirs w) (history_file w)
             (calls w ++ [Exists dst]))
  /\ Forall (fun c => is_remote_write c = false /\ is_transfer c = false
                      /\ c <> OsMkdir (tmp_d host src))
            [Exists dst].
Proof.
  intros Hdst. split.
  - unfold cp, bind, conn_exists, conn_query. by rewrite Hdst.
  - by repeat constructor.
Qed.

(** [cp] up to the transfers: the existence check, then the staging
    directory. *)
Lemma cp_staged src dst w :
  fa_exists dst (remote w) = false ->
  os_fault host (OsMkdir (tmp_d host src)) = None ->
  tmp_d host src ∉ local_dirs w ->
  cp host [src; dst] w
    = ((conn_get_r src (tmp_d host src) true ;;
        conn_put_r (tmp_d host src ++ "/" ++ PosixPath.basename src)%string dst true ;;
        shutil_rmtree host (tmp_d host src) ;;
        ret PyNone)
       (World (remote w) ({[ tmp_d host src ]} ∪ local_dirs w) (history_file w)
              (calls w ++ [Exists dst; OsMkdir (tmp_d host src)]))).
Proof.
  intros Hdst Hfault Hfresh.
  unfold cp, bind at 1 2, conn_exists, conn_query. rewrite Hdst. simpl.
  unfold os_mkdir. rewrite Hfault. simpl.
  rewrite decide_False by done. simpl.
  by rewrite <- app_assoc.
Qed.

(** [cp] from the staging directory on: what it returns and the world it
    leaves, by the outcome of the download, of the upload and of the
    removal. *)
Lemma cp_transfer_phase src dst w :
  fa_exists dst (remote w) = false ->
  os_fault host (OsMkdir (tmp_d host src)) = None ->
  tmp_d host src ∉ local_dirs w ->
  let stage := tmp_d host src in
  let staged := (stage ++ "/" ++ PosixPath.basename src)%string in
  let made := calls w ++ [Exists dst; OsMkdir stage] in
  cp host [src; dst] w =
    match fa_get_r src stage true (remote w) with
    | (Raise e, r1) =>
        (Raise e, World r1 ({[ stage ]} ∪ local_dirs w) (history_file w)
                        (made ++ [Get_r src stage true]))
    | (Ok _, r1) =>
        match fa_put_r staged dst true r1 with
        | (Raise e, r2) =>
            (Raise e, World r2 ({[ stage ]} ∪ local_dirs w) (history_file w)
                            (made ++ [Get_r src stage true; Put_r staged dst true]))
        | (Ok _, r2) =>
            match os_fault host (Rmtree stage) with
            | Some e =>
                (Raise e, World r2 ({[ stage ]} ∪ local_dirs w) (history_file w)
                                (made ++ [Get_r src stage true; Put_r staged dst true;
                                          Rmtree stage]))
            | None =>
                (Ok PyNone, World r2 (({[ stage ]} ∪ local_dirs w) ∖ {[ stage ]})
                                  (history_file w)
                                  (made ++ [Get_r src stage true; Put_r staged dst true;
                                            Rmtree stage]))
            end
        end
    end.
Proof.
  intros Hdst Hfault Hfresh stage staged made.
  rewrite cp_staged by done. fold stage staged made.
  unfold bind, conn_get_r, conn_put_r, conn_call; simpl.
  destruct (fa_get_r src stage true (remote w)) as [[[]|e] r1]; simpl; [|done].
  destruct (fa_put_r staged dst true r1) as [[[]|e] r2]; simpl.
  - unfold shutil_rmtree, log_call; simpl.
    destruct (os_fault host (Rmtree stage)); simpl.
    + by rewrite <- !app_assoc.
    + rewrite decide_True by (by apply elem_of_union_l, elem_of_singleton).
      unfold ret. by rewrite <- !app_assoc.
  - by rewrite <- !app_assoc.
Qed.



(** C9: once the staging directory is made, [cp] calls the recursive
    download, with [preserve_mtime=True].  The recursive upload, also with
    [preserve_mtime=True], is called only after the download has returned:
    when the download raises, [cp] raises that error and no upload was
    called.  No other transfer is called. *)
Theorem cp_download_before_upload src dst w :
  fa_exists dst (remote w) = false ->
  os_fault host (OsMkdir (tmp_d host src)) = None ->
  tmp_d host src ∉ local_dirs w ->
  let stage := tmp_d host src in
  let staged := (stage ++ "/" ++ PosixPath.basename src)%string in
  let out := cp host [src; dst] w in
  match fa_get_r src stage true (remote w) with
  | (Raise e, _) =>
      fst out = Raise e
      /\ calls (snd out)
           = calls w ++ [Exists dst; OsMkdir stage; Get_r src stage true]
  | (Ok _, _) =>
      exists rest,
        calls (snd out)
          = calls w ++ [Exists dst; OsMkdir stage; Get_r src stage true;
                        Put_r staged dst true] ++ rest
        /\ Forall (fun c => is_transfer c = false) rest
  end.
Proof.
  intros Hdst Hmk Hfresh stage staged out. subst out.
  rewrite cp_transfer_phase by done. fold stage staged.
  destruct (fa_get_r src stage true (remote w)) as [[[]|e] r1]; simpl.
  - destruct (fa_put_r staged dst true r1) as [[[]|e] r2]; simpl.
    + destruct (os_fault host (Rmtree stage)); simpl;
        eexists; rewrite <- !app_assoc;
        (split; [reflexivity|by repeat constructor]).
    + exists []. rewrite <- !app_assoc. by split.
  - by rewrite <- !app_assoc.
Qed.

(** *** The history file *)

Lemma keeps_ret {A} (a : A) : keeps_history (R:=R) (ret (R:=R) a).
Proof. done. Qed.

Lemma keeps_raise {A} e : keeps_history (R:=R) (raise (R:=R) (A:=A) e).
Proof. done. Qed.

Lemma keeps_bind {A B} (m : M (R:=R) A) (k : A -> M (R:=R) B) :
  keeps_history m -> (forall a, keeps_history (R:=R) (k a)) -> keeps_history (R:=R) (bind m k).
Proof.
  intros Hm Hk w. unfold bind. specialize (Hm w).
  destruct (m w) as [[a|e] w1]; simpl in *; [|done].
  by rewrite Hk.
Qed.

Lemma keeps_conn_call {A} c (op : R -> result A * R) :
  keeps_history (R:=R) (conn_call c op).
Proof. intros w. unfold conn_call. by destruct (op (remote w)). Qed.

Lemma keeps_conn_query c (q : R -> bool) : keeps_history (R:=R) (conn_query c q).
Proof. done. Qed.

Lemma keeps_try (m : M (R:=R) unit) :
  keeps_history m -> keeps_history (R:=R) (try_except_IOError m).
Proof.
  intros Hm w. unfold try_except_IOError. specialize (Hm w).
  destruct (m w) as [[a|e] w1]; simpl in *; [done|].
  by destruct (is_IOError e).
Qed.

Lemma keeps_os_mkdir path : keeps_history (R:=R) (os_mkdir host path).
Proof.
  intros w. unfold os_mkdir.
  destruct (os_fault host (OsMkdir path)); [done|].
  by destruct (decide (path ∈ local_dirs w)).
Qed.

Lemma keeps_rmtree path : keeps_history (R:=R) (shutil_rmtree host path).
Proof.
  intros w. unfold shutil_rmtree.
  destruct (os_fault host (Rmtree path)); [done|].
  by destruct (decide (path ∈ local_dirs w)).
Qed.

Lemma keeps_for_each {A S} (body : A -> S -> M (R:=R) S) xs :
  (forall x s, keeps_history (R:=R) (body x s)) ->
  forall s, keeps_history (R:=R) (for_each body xs s).
Proof.
  intros Hbody. induction xs as [|x xs IH]; intros s; simpl.
  - apply keeps_ret.
  - apply keeps_bind; [apply Hbody|apply IH].
Qed.

Lemma keeps_walk {S} (fcb dcb ucb : string -> S -> M (R:=R) S) :
  (forall p s, keeps_history (fcb p s)) ->
  (forall p s, keeps_history (dcb p s)) ->
  (forall p s, keeps_history (ucb p s)) ->
  forall es path s,
    keeps_history (walk_entries (walk_node fcb dcb ucb) path es s).
Proof.
  intros Hf Hd Hu.
  apply (forest_node_ind
    (fun n => forall path s, keeps_history (walk_node fcb dcb ucb path n s))
    (fun es => forall path s,
       keeps_history (walk_entries (walk_node fcb dcb ucb) path es s)));
    simpl; intros.
  - apply Hf.
  - apply Hu.
  - apply keeps_bind; [apply Hd|intros; apply keeps_raise].
  - apply keeps_bind; [apply Hd|]. intros. apply H.
  - apply keeps_ret.
  - apply keeps_bind; [apply H|]. intros. apply H0.
Qed.

Lemma keeps_walktree {S} (fcb dcb ucb : string -> S -> M (R:=R) S) path s :
  (forall p s, keeps_history (fcb p s)) ->
  (forall p s, keeps_history (dcb p s)) ->
  (forall p s, keeps_history (ucb p s)) ->
  keeps_history (conn_walktree fcb dcb ucb path s).
Proof.
  intros Hf Hd Hu. unfold conn_walktree.
  apply keeps_bind; [apply keeps_conn_call|].
  intros es. by apply keeps_walk.
Qed.

Lemma keeps_put_loop iter_args :
  forall target, keeps_history (put_loop host target iter_args).
Proof.
  assert (forall n iter_args, (length iter_args <= n)%nat ->
          forall target, keeps_history (put_loop host target iter_args)) as Hn.
  { clear iter_args. induction n as [|n IH]; intros [|a rest] Hlen target;
      simpl in *; try apply keeps_ret; try lia.
    destruct (String.eqb (expanduser host a) "-t").
    - destruct rest as [|t rest']; [apply keeps_raise|].
      apply IH. simpl in Hlen. lia.
    - destruct (os_path_isfile host (expanduser host a)).
      + assert (keeps_history (put_loop host target rest)) by (apply IH; lia).
        destruct target as [tgt|].
        * apply keeps_bind; [apply keeps_try, keeps_conn_call|]. intros.
          apply keeps_bind; [apply keeps_conn_call|done].
        * apply keeps_bind; [apply keeps_conn_call|done].
      + destruct (os_path_isdir host (expanduser host a)); apply keeps_raise. }
  by apply (Hn (length iter_args)).
Qed.

Create HintDb history.

#[local] Hint Resolve keeps_ret keeps_raise keeps_conn_call keeps_conn_query
  keeps_try keeps_os_mkdir keeps_rmtree keeps_for_each keeps_walktree
  keeps_put_loop : history.

(** One step of the routine argument: a [bind], a test or a call. *)
Ltac keeps_step :=
  match goal with
  | |- keeps_history (bind _ _) => apply keeps_bind; [|intros ?]
  | |- keeps_history (conn_walktree _ _ _ _ _) => apply keeps_walktree
  | |- keeps_history (fun _ => (_, _)) => by intros ?
  | |- keeps_history (if ?b then _ else _) => destruct b
  | |- keeps_history (match ?x with _ => _ end) => destruct x
  | |- keeps_history (let '(_, _) := ?x in _) => destruct x
  | |- forall _, _ => intros ?
  | |- _ => solve [unfold conn_isdir, conn_isfile, conn_exists, conn_listdir,
                     conn_chmod, conn_remove, conn_rmdir, conn_mkdir,
                     conn_makedirs, conn_get, conn_put, conn_get_r, conn_put_r;
                   eauto with history]
  end.

(** The command bodies, the undecorated [cp] among them, never write to
    the history file. *)
Lemma keeps_body (v : verb) args :
  keeps_history (R:=R)
    match v with
    | Vls => ls_body args
    | Vchmod => chmod_body host args
    | Vrmdir => rmdir_body args
    | Vrm => rm_body args
    | Vmkdir => mkdir_body args
    | Vget => get_body host args
    | Vput => put_body host args
    | Vcp => cp host args
    | Vhistory => history args
    end.
Proof.
  destruct v;
    unfold ls_body, chmod_body, rmdir_body, rm_body, mkdir_body, get_body,
      put_body, cp, history;
    repeat keeps_step.
Qed.

Lemma log_history_line (v : verb) (body : list string -> M (R:=R) pyval) args w :
  keeps_history (body args) ->
  history_file (snd (log_history (verb_name v) body args w))
    = Some (default "" (history_file w) ++ history_line v args)%string.
Proof.
  intros Hbody. unfold log_history, bind, history_line, history_record.
  destruct args as [|a args]; simpl; rewrite Hbody; simpl; [done|].
  by rewrite !string_app_assoc.
Qed.

(** C4, on the code: a command that carries the [log_history] decorator
    appends its record, the verb followed by the space-joined arguments, as
    one line of the history file, whatever the command then does.  [cp]
    carries no decorator and leaves the history file as it found it. *)
Theorem history_log_misses_cp (v : verb) args w :
  history_file (snd (execute host v args w))
    = if decorated v
      then Some (default "" (history_file w) ++ history_line v args)%string
      else history_file w.
Proof.
  pose proof (keeps_body v args) as Hbody.
  destruct v; simpl; try apply Hbody;
    match goal with
    | |- context [history_line ?v _] =>
        apply (log_history_line v _ args w); exact Hbody
    end.
Qed.

(** *** Argument counts *)


(** *** Paths of the wrong kind *)

(** C7, as the code has it: for a path that is not a file, [get] (with or
    without a local path) raises an [IOError], which is none of the
    [TypeError]s of its argument-count check; [rm] raises the very
    [TypeError] it raises for a wrong argument count, class and message, so
    that the two outcomes of [rm] are the same. *)
Theorem not_a_file_errors p w :
  fa_isfile p (remote w) = false ->
  let not_a_file :=
    Exn IOError ("The remote path '" ++ p ++ "' is not a file")%string in
  fst (get host [p] w) = Raise not_a_file
  /\ (forall localpath, fst (get host [p; localpath] w) = Raise not_a_file)
  /\ (forall args, not_a_file <> usage_error Vget args)
  /\ fst (rm [p] w) = Raise (Exn TypeError rm_usage)
  /\ (forall args, length args <> 1%nat ->
        usage_error Vrm args = Exn TypeError rm_usage
        /\ fst (rm args w) = fst (rm [p] w)).
Proof.
  intros Hfile not_a_file.
  assert (fst (rm [p] w) = Raise (Exn TypeError rm_usage)) as Hrm.
  { unfold rm, log_history, rm_body, bind, conn_isfile, conn_query; simpl.
    by rewrite Hfile. }
  repeat split.
  - unfold get, log_history, get_body, bind, conn_isfile, conn_query; simpl.
    by rewrite Hfile.
  - intros localpath.
    unfold get, log_history, get_body, bind, conn_isfile, conn_query; simpl.
    by rewrite Hfile.
  - done.
  - exact Hrm.
  - rewrite Hrm. by destruct args as [|a0 [|a1 args]].
Qed.

(** *** [rmdir] *)

(** A recursive removal that returned has removed its argument. *)
Lemma rmdir_returned_gone p w w' :
  rmdir [p] w = (Ok PyNone, w') -> fa_isdir p (remote w') = false.
Proof.
  unfold rmdir, log_history, rmdir_body, bind, conn_isdir, conn_query; simpl.
  destruct (fa_isdir p (remote w)); [|discriminate].
  destruct (conn_walktree _ _ _ p [] _) as [[dirs|e] w1]; [|discriminate].
  destruct (for_each _ (rev dirs) tt w1) as [[[]|e] w2]; [|discriminate].
  unfold conn_rmdir, conn_call.
  destruct (fa_rmdir p (remote w2)) as [[[]|e] r'] eqn:Hrm; [|discriminate].
  intros [= <-]. simpl. by apply fa_rmdir_gone with (r := remote w2).
Qed.

(** C5: for a path that is not a directory (it may not exist at all),
    [rmdir] with one argument raises a [TypeError]; the one call it has made
    is the [isdir] check, so nothing was deleted and the remote side is as
    before.  In particular a path that [rmdir] has just removed is refused
    by the next [rmdir] in this way. *)
Theorem rmdir_refuses_non_directory p w :
  (fa_isdir p (remote w) = false ->
   rmdir [p] w
     = (Raise (Exn TypeError ("Error: '" ++ p ++ "' is not a directory")%string),
        World (remote w) (local_dirs w)
              (Some (default "" (history_file w) ++ history_line Vrmdir [p])%string)
              (calls w ++ [Isdir p]))
   /\ Forall (fun c => is_deletion c = false) [Isdir p])
  /\ (forall w', rmdir [p] w = (Ok PyNone, w') ->
       fst (rmdir [p] w')
         = Raise (Exn TypeError ("Error: '" ++ p ++ "' is not a directory")%string)
       /\ calls (snd (rmdir [p] w')) = calls w' ++ [Isdir p]
       /\ remote (snd (rmdir [p] w')) = remote w').
Proof.
  assert (forall w0, fa_isdir p (remote w0) = false ->
    rmdir [p] w0
      = (Raise (Exn TypeError ("Error: '" ++ p ++ "' is not a directory")%string),
         World (remote w0) (local_dirs w0)
               (Some (default "" (history_file w0) ++ history_line Vrmdir [p])%string)
               (calls w0 ++ [Isdir p]))) as Hrefuse.
  { intros w0 Hdir.
    unfold rmdir, log_history, rmdir_body, bind, conn_isdir, conn_query; simpl.
    rewrite Hdir. unfold raise, log_call, history_line; simpl.
    by rewrite !string_app_assoc. }
  split.
  - intros Hdir. split; [by apply Hrefuse|by repeat constructor].
  - intros w' Hok. apply rmdir_returned_gone in Hok.
    by rewrite (Hrefuse w' Hok).
Qed.


Lemma rmdir_each_returned ds : forall w w',
  for_each (fun dir _ => conn_rmdir dir) ds tt w = (Ok tt, w') ->
  calls w' = calls w ++ map Rmdir ds.
Proof.
  induction ds as [|d ds IH]; intros w w'; simpl.
  - intros [= <-]. by rewrite app_nil_r.
  - unfold bind at 1, conn_rmdir at 1, conn_call.
    destruct (fa_rmdir d (remote w)) as [[[]|e] r']; [|discriminate].
    intros Hrest%IH. rewrite Hrest. simpl. by rewrite <- app_assoc.
Qed.






End Facts.

(** ** Recursive removal on the tree filesystem

    On the tree filesystem a recursive removal always goes through: for
    every well-formed tree below a directory, when no removal is refused,
    [rmdir] returns and the directory is gone. *)

Module TreeFSRemoval.

Import TreeFS TreeFSLaws.

Local Open Scope list_scope.

Section Removal.

Variable flt : call -> option exn.
Hypothesis flt_remove : forall q, flt (Remove q) = None.
Hypothesis flt_rmdir : forall q, flt (Rmdir q) = None.

Notation "x <- m ;; k" := (bind m (fun x => k))
  (at level 100, m at next level, right associativity).
Notation "m ;; k" := (bind m (fun _ => k))
  (at level 100, right associativity).

Lemma after_spec cs es0 root :
  Dir (after cs es0 root) = replace_at cs (Dir es0) (Dir root).
Proof.
  unfold after. by destruct (replace_at_dir cs es0 root) as [es' ->].
Qed.

Lemma resolve_after cs es0 root m0 :
  resolve_node cs (Dir root) = Some m0 ->
  resolve_node cs (Dir (after cs es0 root)) = Some (Dir es0).
Proof. rewrite after_spec. apply resolve_replace_at. Qed.

Lemma after_twice cs es1 es2 root m0 :
  resolve_node cs (Dir root) = Some m0 ->
  after cs es2 (after cs es1 root) = after cs es2 root.
Proof.
  intros Hres. unfold after at 1. rewrite after_spec.
  by rewrite (replace_at_twice _ _ _ _ _ Hres).
Qed.

Lemma after_same cs es0 root :
  resolve_node cs (Dir root) = Some (Dir es0) ->
  after cs es0 root = root.
Proof. intros Hres. unfold after. by rewrite (replace_at_same _ _ _ Hres). Qed.

Lemma after_snoc cs c es0 es root :
  resolve_node cs (Dir root) = Some (Dir es) ->
  is_Some (lookup_entry c es) ->
  after (cs ++ [c]) es0 root = after cs (put_entry c (Dir es0) es) root.
Proof.
  intros Hres Hsome. unfold after.
  by rewrite (replace_at_snoc _ _ _ _ _ Hres Hsome).
Qed.

Lemma skeleton_node_Dir es :
  skeleton_node (Dir es) = Some (Dir (skeleton es)).
Proof. reflexivity. Qed.

Lemma skeleton_node_Dir' name es :
  skeleton_entry name (Dir es) = [(name, Dir (skeleton es))].
Proof. reflexivity. Qed.

Lemma skeleton_cons name n es :
  skeleton ((name, n) :: es) = skeleton_entry name n ++ skeleton es.
Proof. unfold skeleton_entry. simpl. by destruct (skeleton_node n). Qed.

Lemma wf_forest_NoDup es : wf_forest es -> NoDup (map fst es).
Proof.
  induction es as [|[name n] es IH]; simpl; intros Hwf.
  - constructor.
  - inversion Hwf; subst. apply NoDup_cons.
    split; [by rewrite list_elem_of_In|by apply IH].
Qed.

Lemma names_mid (pre post : forest) name x :
  NoDup (map fst (pre ++ (name, x) :: post)) ->
  ~ In name (map fst pre) /\ ~ In name (map fst post)
  /\ NoDup (map fst (pre ++ post)).
Proof.
  rewrite !map_app. simpl.
  intros (Hpre & Hdisj & [Hname Hpost]%NoDup_cons)%NoDup_app.
  split; [|split].
  - intros Hin%list_elem_of_In. apply (Hdisj name Hin). by left.
  - by rewrite <- list_elem_of_In.
  - apply NoDup_app. split; [done|]. split; [|done].
    intros y Hy Hin. apply (Hdisj y Hy). by right.
Qed.

Abbreviation W root lds hist tr := (World (State root flt) lds hist tr).

(** Removing a file takes its entry out of the listing it is in. *)
Lemma remove_step path name x pre post root lds hist tr :
  good_name name = true ->
  resolve_node (components path) (Dir root)
    = Some (Dir (pre ++ (name, x) :: post)) ->
  NoDup (map fst (pre ++ (name, x) :: post)) ->
  x = File \/ x = Special ->
  conn_remove (PosixPath.join path name) (W root lds hist tr)
    = (Ok tt,
       W (after (components path) (pre ++ post) root) lds hist
         (tr ++ [Remove (PosixPath.join path name)])).
Proof.
  intros Hname Hres (Hpre & Hpost & _)%names_mid Hx.
  unfold conn_remove, conn_call. cbn [remote fa_remove facade].
  unfold remove, with_fault. cbn [fault]. rewrite flt_remove.
  unfold alter. cbn [tree].
  rewrite components_join, (alter_node_focus _ _ _ _ _ Hres) by done.
  rewrite lookup_entry_mid by done.
  destruct Hx as [-> | ->]; cbn [set_entry];
    rewrite remove_entry_mid, <- after_spec by done; reflexivity.
Qed.

(** Removing an empty directory takes its entry out of the listing it is
    in. *)
Lemma rmdir_step path name pre post root lds hist tr :
  good_name name = true ->
  resolve_node (components path) (Dir root)
    = Some (Dir (pre ++ (name, Dir []) :: post)) ->
  NoDup (map fst (pre ++ (name, Dir []) :: post)) ->
  conn_rmdir (PosixPath.join path name) (W root lds hist tr)
    = (Ok tt,
       W (after (components path) (pre ++ post) root) lds hist
         (tr ++ [Rmdir (PosixPath.join path name)])).
Proof.
  intros Hname Hres (Hpre & Hpost & _)%names_mid.
  unfold conn_rmdir, conn_call. cbn [remote fa_rmdir facade].
  unfold rmdir, with_fault. cbn [fault]. rewrite flt_rmdir.
  unfold alter. cbn [tree].
  rewrite components_join, (alter_node_focus _ _ _ _ _ Hres) by done.
  rewrite lookup_entry_mid by done. cbn [set_entry].
  rewrite remove_entry_mid, <- after_spec by done. reflexivity.
Qed.

(** The walk of [rmdir] on a well-formed listing returns; it leaves the
    directories of the listing, and nothing else changes. *)
Lemma walk_leaves_skeleton :
  let fcb := fun p (dirs : list string) => conn_remove p ;; ret dirs in
  let dcb := fun p (dirs : list string) => ret (R:=state) (dirs ++ [p]) in
  forall es path pre root dirs lds hist tr,
    resolve_node (components path) (Dir root) = Some (Dir (pre ++ es)) ->
    NoDup (map fst (pre ++ es)) ->
    wf_forest es ->
    walk_entries (walk_node fcb dcb fcb) path es dirs (W root lds hist tr)
      = (Ok (dirs ++ walk_paths dirs_met path es),
         W (after (components path) (pre ++ skeleton es) root) lds hist
           (tr ++ map Remove (walk_paths files_met path es))).
Proof.
  intros fcb dcb.
  assert (forall x, x = File \/ x = Special ->
    forall name path pre post root dirs lds hist tr,
      resolve_node (components path) (Dir root)
        = Some (Dir (pre ++ (name, x) :: post)) ->
      NoDup (map fst (pre ++ (name, x) :: post)) ->
      good_name name = true ->
      fcb (PosixPath.join path name) dirs (W root lds hist tr)
        = (Ok (dirs ++ []),
           W (after (components path) (pre ++ skeleton_entry name x ++ post) root)
             lds hist (tr ++ [Remove (PosixPath.join path name)]))) as Hfile.
  { intros x Hx name path pre post root dirs lds hist tr Hres Hnd Hname.
    unfold fcb, bind. rewrite (remove_step _ _ _ _ _ _ _ _ _ Hname Hres Hnd Hx).
    rewrite app_nil_r. by destruct Hx as [-> | ->]. }
  apply (forest_node_ind
    (fun n => forall name path pre post root dirs lds hist tr,
       resolve_node (components path) (Dir root)
         = Some (Dir (pre ++ (name, n) :: post)) ->
       NoDup (map fst (pre ++ (name, n) :: post)) ->
       good_name name = true ->
       wf_node n ->
       walk_node fcb dcb fcb (PosixPath.join path name) n dirs (W root lds hist tr)
         = (Ok (dirs ++ dirs_met (PosixPath.join path name) n),
            W (after (components path) (pre ++ skeleton_entry name n ++ post) root)
              lds hist
              (tr ++ map Remove (files_met (PosixPath.join path name) n))))
    (fun es => forall path pre root dirs lds hist tr,
       resolve_node (components path) (Dir root) = Some (Dir (pre ++ es)) ->
       NoDup (map fst (pre ++ es)) ->
       wf_forest es ->
       walk_entries (walk_node fcb dcb fcb) path es dirs (W root lds hist tr)
         = (Ok (dirs ++ walk_paths dirs_met path es),
            W (after (components path) (pre ++ skeleton es) root) lds hist
              (tr ++ map Remove (walk_paths files_met path es))))).
  - intros. by apply Hfile; [left|..].
  - intros. by apply Hfile; [right|..].
  - intros e name path pre post root dirs lds hist tr _ _ _ Hwf. inversion Hwf.
  - intros es IH name path pre post root dirs lds hist tr Hres Hnd Hname Hwf.
    inversion Hwf as [| |es' Hes]; subst.
    destruct (names_mid _ _ _ _ Hnd) as (Hpre & Hpost & _).
    cbn [walk_node]. unfold bind at 1, dcb at 1, ret at 1.
    rewrite (IH (PosixPath.join path name) [] root).
    + rewrite components_join by done.
      rewrite (after_snoc _ _ _ _ _ Hres)
        by (rewrite lookup_entry_mid by done; by eexists).
      rewrite put_entry_mid by done.
      rewrite skeleton_node_Dir' . cbn [dirs_met files_met app].
      by rewrite <- app_assoc.
    + rewrite components_join, resolve_node_snoc, Hres by done.
      by rewrite lookup_entry_mid.
    + by apply wf_forest_NoDup.
    + done.
  - intros path pre root dirs lds hist tr Hres _ _. cbn.
    rewrite !app_nil_r in *. by rewrite (after_same _ _ _ Hres).
  - intros name n es IHn IHes path pre root dirs lds hist tr Hres Hnd Hwf.
    inversion Hwf as [|name' n' es' Hname Hfresh Hn Hes]; subst.
    cbn [walk_entries]. unfold bind at 1.
    rewrite (IHn name path pre es root dirs lds hist tr Hres Hnd Hname Hn).
    rewrite (IHes path (pre ++ skeleton_entry name n)).
    + rewrite (after_twice _ _ _ _ _ Hres).
      rewrite skeleton_cons. cbn [walk_paths].
      by rewrite map_app, <- !app_assoc.
    + rewrite <- app_assoc. by apply (resolve_after _ _ _ _ Hres).
    + destruct (names_mid _ _ _ _ Hnd) as (Hpre & Hpost & Hnd').
      unfold skeleton_entry. destruct (skeleton_node n).
      * rewrite <- app_assoc. simpl.
        by rewrite !map_app in *.
      * by rewrite app_nil_r.
    + done.
Qed.

Lemma for_each_app {A S} (body : A -> S -> M (R:=state) S) xs ys : forall s w,
  for_each body (xs ++ ys) s w
    = (s' <- for_each body xs s ;; for_each body ys s') w.
Proof.
  induction xs as [|x xs IH]; intros s w; simpl; [done|].
  unfold bind. destruct (body x s w) as [[s1|e] w1]; [|done].
  rewrite IH. done.
Qed.

Lemma names_upto (pre post : forest) name x y :
  NoDup (map fst (pre ++ (name, x) :: post)) ->
  NoDup (map fst (pre ++ [(name, y)])).
Proof.
  rewrite !map_app. simpl.
  intros (Hpre & Hdisj & [Hname Hpost]%NoDup_cons)%NoDup_app.
  apply NoDup_app. split; [done|]. split.
  - intros z Hz Hin. apply (Hdisj z Hz).
    apply list_elem_of_singleton in Hin as ->. by left.
  - apply NoDup_singleton.
Qed.

(** Removing the directories the walk met, last met first, empties the
    listing of them: each one is empty when its turn comes. *)
Lemma reverse_removal_empties :
  forall es path pre root lds hist tr,
    resolve_node (components path) (Dir root)
      = Some (Dir (pre ++ skeleton es)) ->
    NoDup (map fst (pre ++ es)) ->
    wf_forest es ->
    for_each (fun dir _ => conn_rmdir dir)
      (rev (walk_paths dirs_met path es)) tt (W root lds hist tr)
      = (Ok tt,
         W (after (components path) pre root) lds hist
           (tr ++ map Rmdir (rev (walk_paths dirs_met path es)))).
Proof.
  apply (forest_node_ind
    (fun n => forall name path pre root lds hist tr,
       resolve_node (components path) (Dir root)
         = Some (Dir (pre ++ skeleton_entry name n)) ->
       NoDup (map fst (pre ++ [(name, n)])) ->
       good_name name = true ->
       wf_node n ->
       for_each (fun dir _ => conn_rmdir dir)
         (rev (dirs_met (PosixPath.join path name) n)) tt (W root lds hist tr)
         = (Ok tt,
            W (after (components path) pre root) lds hist
              (tr ++ map Rmdir (rev (dirs_met (PosixPath.join path name) n)))))
    (fun es => forall path pre root lds hist tr,
       resolve_node (components path) (Dir root)
         = Some (Dir (pre ++ skeleton es)) ->
       NoDup (map fst (pre ++ es)) ->
       wf_forest es ->
       for_each (fun dir _ => conn_rmdir dir)
         (rev (walk_paths dirs_met path es)) tt (W root lds hist tr)
         = (Ok tt,
            W (after (components path) pre root) lds hist
              (tr ++ map Rmdir (rev (walk_paths dirs_met path es)))))).
  - intros name path pre root lds hist tr Hres _ _ _. cbn in *.
    rewrite !app_nil_r in *. by rewrite (after_same _ _ _ Hres).
  - intros name path pre root lds hist tr Hres _ _ _. cbn in *.
    rewrite !app_nil_r in *. by rewrite (after_same _ _ _ Hres).
  - intros e name path pre root lds hist tr _ _ _ Hwf. inversion Hwf.
  - intros es IH name path pre root lds hist tr Hres Hnd Hname Hwf.
    inversion Hwf as [| |es' Hes]; subst.
    rewrite skeleton_node_Dir' in Hres.
    destruct (names_mid _ _ _ _ Hnd) as (Hpre & _ & _).
    cbn [dirs_met rev]. rewrite for_each_app. unfold bind at 1.
    rewrite (IH (PosixPath.join path name) [] root).
    + rewrite components_join by done.
      rewrite (after_snoc _ _ _ _ _ Hres)
        by (rewrite lookup_entry_mid by done; by eexists).
      rewrite put_entry_mid by done.
      cbn [for_each]. unfold bind at 1.
      rewrite (rmdir_step path name pre []); [| done | | ].
      * rewrite app_nil_r, (after_twice _ _ _ _ _ Hres).
        unfold ret. by rewrite map_app, <- app_assoc.
      * by apply (resolve_after _ _ _ _ Hres).
      * by apply (names_upto _ [] _ (Dir es)).
    + rewrite components_join, resolve_node_snoc, Hres by done.
      by rewrite lookup_entry_mid.
    + by apply wf_forest_NoDup.
    + done.
  - intros path pre root lds hist tr Hres _ _. cbn in *.
    rewrite !app_nil_r in *. by rewrite (after_same _ _ _ Hres).
  - intros name n es IHn IHes path pre root lds hist tr Hres Hnd Hwf.
    inversion Hwf as [|name' n' es' Hname Hfresh Hn Hes]; subst.
    rewrite skeleton_cons, app_assoc in Hres.
    cbn [walk_paths]. rewrite rev_app_distr, for_each_app. unfold bind at 1.
    rewrite (IHes path (pre ++ skeleton_entry name n) root _ _ _ Hres).
    + rewrite (IHn name path pre).
      * rewrite (after_twice _ _ _ _ _ Hres).
        by rewrite map_app, <- app_assoc.
      * by apply (resolve_after _ _ _ _ Hres).
      * by apply (names_upto _ es _ n).
      * done.
      * done.
    + destruct (names_mid _ _ _ _ Hnd) as (Hpre & Hpost & Hnd').
      unfold skeleton_entry. destruct (skeleton_node n).
      * rewrite <- app_assoc. simpl. by rewrite !map_app in *.
      * by rewrite app_nil_r.
    + done.
Qed.

End Removal.

End TreeFSRemoval.

Section TreeRemoval.

Import TreeFSLaws.

Local Open Scope list_scope.

(** X15: on the tree filesystem, for a path that names a directory with a
    well-formed tree below it, when no [remove], [rmdir] or the walk is
    refused, [rmdir] returns [None] having made the calls of the removal
    order in full; afterwards the path does not exist, and the remote tree
    is the one before with that entry taken out. *)
Theorem rmdir_removes_tree (flt : call -> option exn) p root es lds hist tr :
  (forall q, flt (Remove q) = None) ->
  (forall q, flt (Rmdir q) = None) ->
  flt (Walktree p) = None ->
  TreeFS.components p <> [] ->
  TreeFS.resolve_node (TreeFS.components p) (Dir root) = Some (Dir es) ->
  TreeFS.wf_forest es ->
  exists root',
    rmdir [p] (World (TreeFS.State root flt) lds hist tr)
      = (Ok PyNone,
         World (TreeFS.State root' flt) lds
               (Some (default "" hist ++ history_line Vrmdir [p])%string)
               (tr ++ [Isdir p; Walktree p]
                   ++ map Remove (walk_paths files_met p es)
                   ++ map Rmdir (rev (walk_paths dirs_met p es))
                   ++ [Rmdir p]))
    /\ TreeFS.exists_ p (TreeFS.State root' flt) = false
    /\ Dir root' = TreeFS.remove_at (TreeFS.components p) (Dir root).
Proof.
  intros Hremove Hrmdir Hwalk Hne Hres Hwf.
  destruct (exists_last Hne) as (init & c & Hcs).
  pose proof Hres as Hres'. rewrite Hcs, resolve_node_snoc in Hres'.
  destruct (TreeFS.resolve_node init (Dir root)) as [[| |parent|]|] eqn:Hinit;
    try discriminate Hres'.
  set (parent' := TreeFS.put_entry c (Dir []) parent).
  set (root' := TreeFS.after init (TreeFS.remove_entry c parent) root).
  exists root'. split; [|split].
  - unfold rmdir, log_history, rmdir_body.
    unfold bind at 1 2, history_append, conn_isdir, conn_query, log_call.
    cbn [length Nat.ltb Nat.leb remote local_dirs history_file calls
         fa_isdir TreeFSLaws.facade].
    unfold TreeFS.isdir, TreeFS.resolve. cbn [TreeFS.tree]. rewrite Hres.
    unfold conn_walktree, bind at 1 2, conn_call at 1.
    cbn [remote local_dirs history_file calls fa_walk TreeFSLaws.facade].
    unfold TreeFS.walk, TreeFS.with_fault, TreeFS.entries_at, TreeFS.resolve.
    cbn [TreeFS.fault TreeFS.tree]. rewrite Hwalk, Hres.
    pose proof (TreeFSRemoval.walk_leaves_skeleton flt Hremove) as Hphase1.
    cbv zeta in Hphase1.
    rewrite (Hphase1 es p [] root); [|done|by apply TreeFSRemoval.wf_forest_NoDup|done].
    unfold bind at 1.
    rewrite (TreeFSRemoval.reverse_removal_empties flt Hrmdir es p []);
      [| |by apply TreeFSRemoval.wf_forest_NoDup|done].
    2: { by apply (TreeFSRemoval.resolve_after _ _ _ _ Hres). }
    rewrite (TreeFSRemoval.after_twice _ _ _ _ _ Hres).
    unfold bind, conn_rmdir, conn_call.
    cbn [remote local_dirs history_file calls fa_rmdir TreeFSLaws.facade].
    unfold TreeFS.rmdir, TreeFS.with_fault. cbn [TreeFS.fault].
    rewrite Hrmdir. unfold TreeFS.alter. cbn [TreeFS.tree].
    rewrite Hcs.
    rewrite (TreeFSRemoval.after_snoc _ _ _ _ _ Hinit) by (by eexists).
    fold parent'.
    rewrite (alter_node_focus _ _ _ _ parent'
               (TreeFSRemoval.resolve_after _ _ _ _ Hinit)).
    unfold parent' at 1. rewrite lookup_put_entry. cbn [TreeFS.set_entry].
    unfold parent'. rewrite remove_put_entry.
    rewrite <- TreeFSRemoval.after_spec.
    rewrite (TreeFSRemoval.after_twice _ _ _ _ _ Hinit). fold root'.
    unfold ret, history_line, history_record, verb_name. cbn [PyStr.join].
    rewrite !string_app_assoc, <- !app_assoc. reflexivity.
  - unfold TreeFS.exists_, TreeFS.resolve. cbn [TreeFS.tree].
    rewrite Hcs, resolve_node_snoc.
    unfold root'. rewrite (TreeFSRemoval.resolve_after _ _ _ _ Hinit).
    by rewrite lookup_remove_entry.
  - rewrite Hcs, (remove_at_snoc _ _ _ _ Hinit).
    apply TreeFSRemoval.after_spec.
Qed.

End TreeRemoval.

(** ** The scenarios of the specification, run *)

Module Runs.

Import Scenario.

Local Open Scope list_scope.




(** [rmdir root] leaves nothing of [root]. *)
Lemma rmdir_removes_tree_run :
  exists root',
    rmdir ["root"] start
      = (Ok PyNone,
         World (TreeFS.State root' no_fault) ∅
               (Some ("rmdir root" ++ HISTORY_NEWLINE)%string)
               [Isdir "root"; Walktree "root";
                Remove "root/a.txt"; Remove "root/sub/b.txt";
                Rmdir "root/sub"; Rmdir "root"])
    /\ TreeFS.exists_ "root" (TreeFS.State root' no_fault) = false
    /\ Dir root' = Dir [].
Proof.
  assert (TreeFS.wf_forest [("a.txt", File); ("sub", Dir [("b.txt", File)])])
    as Hwf by (repeat constructor; simpl; intuition discriminate).
  assert (TreeFS.components "root" <> []) as Hne by done.
  exact (rmdir_removes_tree no_fault "root" root_tree
           [("a.txt", File); ("sub", Dir [("b.txt", File)])] ∅ None []
           (fun _ => eq_refl) (fun _ => eq_refl) eq_refl Hne eq_refl Hwf).
Defined.

(** [cp root/sub root]: the destination exists. *)
Lemma cp_existing_destination_run :
  cp host ["root/sub"; "root"] start
    = (Raise (Exn IOError "mkdir: root: File exists"),
       World (remote start) ∅ None [Exists "root"]).
Proof.
  exact (proj1 (cp_existing_destination host "root/sub" "root" start eq_refl)).
Defined.

(** [rmdir] of a file, and [rmdir root] twice. *)
Lemma rmdir_refuses_non_directory_run :
  fst (rmdir ["root/a.txt"] start)
    = Raise (Exn TypeError "Error: 'root/a.txt' is not a directory")
  /\ fst (rmdir ["root"] (snd (rmdir ["root"] start)))
     = Raise (Exn TypeError "Error: 'root' is not a directory").
Proof.
  split.
  - exact (f_equal fst
             (proj1 (proj1 (rmdir_refuses_non_directory "root/a.txt" start)
                       eq_refl))).
  - exact (proj1 (proj2 (rmdir_refuses_non_directory "root" start)
                    (snd (rmdir ["root"] start)) eq_refl)).
Defined.



(** [get] and [rm] of a directory. *)
Lemma not_a_file_errors_run :
  fst (get host ["root/sub"] start)
    = Raise (Exn IOError "The remote path 'root/sub' is not a file")
  /\ fst (rm ["root/sub"] start) = Raise (Exn TypeError rm_usage).
Proof.
  pose proof (not_a_file_errors host "root/sub" start eq_refl)
    as (Hget & _ & _ & Hrm & _).
  split; [exact Hget|exact Hrm].
Defined.

(** C7 does not hold of [rm]: for a path that does not exist it raises the
    error it raises for a wrong argument count. *)
Lemma rm_missing_file_is_usage_error :
  fa_isfile "missing.txt" (remote start) = false
  /\ fst (rm ["missing.txt"] start) = fst (rm [] start)
  /\ fst (rm [] start) = Raise (usage_error Vrm []).
Proof. by repeat split. Qed.


(** [cp root/sub copy]: the download, then the upload. *)
Lemma cp_download_before_upload_run :
  exists rest,
    calls (snd (cp host ["root/sub"; "copy"] start))
      = [Exists "copy"; OsMkdir "/tmp/sub"; Get_r "root/sub" "/tmp/sub" true;
         Put_r "/tmp/sub/sub" "copy" true] ++ rest
    /\ Forall (fun c => is_transfer c = false) rest.
Proof.
  assert ("/tmp/sub" ∉ local_dirs start) as Hfresh
    by (apply (bool_decide_unpack _); vm_compute; exact I).
  exact (cp_download_before_upload host "root/sub" "copy" start
           eq_refl eq_refl Hfresh).
Defined.

(** [cp root root-copy] next to [rmdir root]: only the second leaves a
    record. *)
Example cp_leaves_no_record :
  history_file (snd (cp host ["root"; "root-copy"] start)) = None
  /\ history_file (snd (rmdir ["root"] start))
     = Some ("rmdir root" ++ HISTORY_NEWLINE)%string.
Proof. by split. Qed.

End Runs.

(** ** Further facts: the history file read back *)



Section MoreFacts.

Context {R : Type} `{!Facade R} (host : Host).

Local Open Scope list_scope.

Notation "x <- m ;; k" := (bind m (fun x => k))
  (at level 100, m at next level, right associativity).
Notation "m ;; k" := (bind m (fun _ => k))
  (at level 100, right associativity).

Implicit Types (w : world (R:=R)) (p src dst : string) (args : list string).






(** *** The calls a command makes *)

Section Footprint.

Variable P : call -> bool.















End Footprint.




(** *** [put] *)

Lemma put_loop_stops files rest e :
  forallb (plain_file host) files = true ->
  stopper host rest = Some e ->
  forall w,
    is_ok (fst (put_loop host None (files ++ rest) w)) = false
    /\ (exists made,
          calls (snd (put_loop host None (files ++ rest) w)) = calls w ++ made
          /\ made `prefix_of` map (put_call host) files)
    /\ (uploads_return host files (remote w) = true ->
        fst (put_loop host None (files ++ rest) w) = Raise e
        /\ calls (snd (put_loop host None (files ++ rest) w))
           = calls w ++ map (put_call host) files).
Proof.
  intros Hplain Hstop.
  induction files as [|a files IH]; intros w.
  - cbn [app map uploads_return]. rewrite app_nil_r.
    assert (put_loop host None rest w = (Raise e, w)) as ->.
    { destruct rest as [|b rest']; [discriminate|]. simpl in *.
      destruct (String.eqb (expanduser host b) "-t").
      - destruct rest'; [|discriminate]. by injection Hstop as <-.
      - destruct (os_path_isfile host (expanduser host b)); [discriminate|].
        destruct (os_path_isdir host (expanduser host b));
          by injection Hstop as <-. }
    split; [done|]. split; [|done]. exists []. by rewrite app_nil_r.
  - cbn [forallb] in Hplain. apply andb_true_iff in Hplain as [Ha Hplain].
    unfold plain_file in Ha.
    apply andb_true_iff in Ha as [Hflag%negb_true_iff Hfile].
    specialize (IH Hplain).
    cbn [app put_loop map uploads_return]. rewrite Hflag, Hfile.
    unfold bind, conn_put, conn_call.
    destruct (fa_put (expanduser host a) None true (remote w))
      as [[[]|e'] r'].
    + match goal with
      | |- context [put_loop host None (files ++ rest) ?w1] =>
          destruct (IH w1) as (Hnot & (made & Hcalls & Hprefix) & Hall)
      end.
      split; [done|]. split.
      * exists (put_call host a :: made). rewrite Hcalls. simpl.
        rewrite <- app_assoc. split; [done|by apply prefix_cons].
      * intros Hret. destruct (Hall Hret) as [-> ->]. simpl.
        by rewrite <- app_assoc.
    + simpl. split; [done|]. split; [|done].
      exists [put_call host a]. split; [done|]. apply prefix_cons, prefix_nil.
Qed.

(** X4: [put] with a directory, a name that is no local file, or the flag
    [-t] as last argument, after any number of plain local files: it raises,
    never returns; what it has called is the uploads of the files before, in
    order, up to the first that raised, and nothing of what comes after; when
    those uploads all return, they stay done and [put] raises for the argument
    it stopped at ([IOError], [FileNotFoundError], [StopIteration]). *)
Theorem put_stops_at_bad_argument files rest e w :
  forallb (plain_file host) files = true ->
  stopper host rest = Some e ->
  let out := put host (files ++ rest) w in
  is_ok (fst out) = false
  /\ (exists made,
        calls (snd out) = calls w ++ made
        /\ made `prefix_of` map (put_call host) files)
  /\ (uploads_return host files (remote w) = true ->
      fst out = Raise e
      /\ calls (snd out) = calls w ++ map (put_call host) files).
Proof.
  intros Hplain Hstop out. subst out.
  assert (exists w1,
            put host (files ++ rest) w
              = (put_loop host None (files ++ rest) ;; ret PyNone) w1
            /\ calls w1 = calls w /\ remote w1 = remote w)
    as (w1 & -> & Hc & Hr).
  { unfold put, log_history, put_body, bind at 1.
    destruct (0 <? length (files ++ rest))%nat; by eexists. }
  destruct (put_loop_stops files rest e Hplain Hstop w1)
    as (Hnot & Hmade & Hall).
  rewrite Hc, Hr in *. unfold bind.
  destruct (put_loop host None (files ++ rest) w1) as [[[]|e'] w2];
    [discriminate|].
  cbn [fst snd] in *. split; [done|]. split; [exact Hmade|].
  intros Hret. destruct (Hall Hret) as [[= ->] ->]. done.
Qed.

(** X5: [put -t target file] first makes the target directory, then
    uploads the file to [target/basename(file)].  An error of the [IOError]
    family from the [mkdir] (the directory exists, or a permission is denied)
    is passed over and the upload is tried all the same; any other error of
    the [mkdir] is raised and nothing is uploaded.  The target is taken as
    written, without [expanduser]. *)
Theorem put_into_target flag target file w :
  expanduser host flag = "-t" ->
  plain_file host file = true ->
  let upload :=
    Put (expanduser host file)
        (Some (target ++ "/" ++ PosixPath.basename (expanduser host file))%string)
        true in
  let out := put host [flag; target; file] w in
  match fa_mkdir target None (remote w) with
  | (Raise e, _) =>
      if is_IOError e
      then calls (snd out) = calls w ++ [Mkdir target None; upload]
      else fst out = Raise e /\ calls (snd out) = calls w ++ [Mkdir target None]
  | (Ok _, _) => calls (snd out) = calls w ++ [Mkdir target None; upload]
  end.
Proof.
  intros Hflag Hplain upload out. subst out upload.
  unfold plain_file in Hplain.
  apply andb_true_iff in Hplain as [Hnot%negb_true_iff Hfile].
  unfold put, log_history, put_body, bind at 1. cbn [length Nat.ltb Nat.leb].
  unfold history_append at 1. unfold bind at 1.
  cbn [put_loop]. rewrite Hflag. cbn [String.eqb Ascii.eqb Bool.eqb].
  rewrite Hnot, Hfile.
  unfold bind, try_except_IOError, conn_mkdir, conn_put, conn_call, ret.
  cbn [remote local_dirs history_file calls].
  destruct (fa_mkdir target None (remote w)) as [[[]|e] r1] eqn:Hmk;
    simpl; rewrite ?Hmk; simpl.
  - destruct (fa_put _ _ true r1) as [[[]|e'] r2]; simpl;
      by rewrite <- app_assoc.
  - destruct (is_IOError e); simpl; [|done].
    destruct (fa_put _ _ true r1) as [[[]|e'] r2]; simpl;
      by rewrite <- app_assoc.
Qed.

(** *** [cp], again *)


(** X7: a [cp] that raises after it has made its staging directory leaves
    that directory behind, and with it every later [cp] of a source of the
    same base name is stopped: it raises [FileExistsError] when it comes to
    make the directory, having called nothing but the check of its
    destination. *)
Theorem cp_retry_collides src dst e w :
  fa_exists dst (remote w) = false ->
  os_fault host (OsMkdir (tmp_d host src)) = None ->
  tmp_d host src ∉ local_dirs w ->
  fst (cp host [src; dst] w) = Raise e ->
  let w1 := snd (cp host [src; dst] w) in
  tmp_d host src ∈ local_dirs w1
  /\ forall src' dst',
       PosixPath.basename src' = PosixPath.basename src ->
       fa_exists dst' (remote w1) = false ->
       cp host [src'; dst'] w1
         = (Raise (Exn FileExistsError (tmp_d host src)),
            World (remote w1) (local_dirs w1) (history_file w1)
                  (calls w1 ++ [Exists dst'; OsMkdir (tmp_d host src)])).
Proof.
  intros Hdst Hmk Hfresh Hraise w1.
  assert (tmp_d host src ∈ local_dirs w1) as Hleft.
  { subst w1. revert Hraise. rewrite cp_transfer_phase by done. cbv zeta.
    assert (tmp_d host src ∈ {[tmp_d host src]} ∪ local_dirs w)
      by (by apply elem_of_union_l, elem_of_singleton).
    destruct (fa_get_r _ _ _ _) as [[[]|e1] r1]; [|done].
    destruct (fa_put_r _ _ _ _) as [[[]|e2] r2]; [|done].
    by destruct (os_fault host (Rmtree (tmp_d host src))). }
  split; [exact Hleft|].
  intros src' dst' Hbase Hdst'.
  unfold cp, bind, conn_exists, conn_query. rewrite Hdst'. simpl.
  assert (tmp_d host src' = tmp_d host src) as ->
    by (unfold tmp_d; by rewrite Hbase).
  unfold os_mkdir. rewrite Hmk. simpl.
  rewrite decide_True by done. unfold log_call. simpl.
  by rewrite <- app_assoc.
Qed.

(** *** The bootstrap of the connection *)

Section Bootstrap.

Variable connect : connect_args -> result (R * hostkey).

(** X8: the authentication [initiate_connection] selects.  With a
    password, the connection is tried with the password alone, whether or not
    there is a private key file or a passphrase.  Without a password, with the
    key file [~/.ssh/id_rsa], it is tried with that key, and with the
    passphrase if there is one.  With neither, [BadAuthenticationType] is
    raised, no connection is tried and [known_hosts] stays as it is. *)
Theorem authentication_selected self known_hosts :
  let hostkeys :=
    match known_hosts !! hostname self with
    | None => None
    | Some _ => Some known_hosts
    end in
  let tried (cargs : connect_args) :=
    fst (initiate_connection host connect self known_hosts)
      = match connect cargs with
        | Ok (connection, _) => Ok connection
        | Raise e => Raise e
        end in
  match password self with
  | Some pw =>
      tried (ConnectArgs (hostname self) (username self) hostkeys
                         (Some pw) None None)
  | None =>
      if os_path_isfile host (ssh_key host)
      then tried (ConnectArgs (hostname self) (username self) hostkeys
                              None (Some (ssh_key host))
                              (private_key_password self))
      else initiate_connection host connect self known_hosts
             = (Raise BadAuthenticationType, known_hosts)
  end.
Proof.
  intros hostkeys tried. subst tried hostkeys.
  unfold initiate_connection, connection_args.
  destruct (password self) as [pw|].
  - destruct (connect _) as [[connection key]|e]; [|done].
    by destruct (known_hosts !! hostname self).
  - destruct (os_path_isfile host (ssh_key host)); [|done].
    destruct (connect _) as [[connection key]|e]; [|done].
    by destruct (known_hosts !! hostname self).
Qed.

(** X9: trust on first use.  For a host without a key in [known_hosts] the
    connection is made with the check of the server's key switched off; when
    it is established, the key the server showed is saved for the host, and
    the keys of other hosts stay as they are.  From then on a connection to
    that host is made with the check switched on, against the saved keys, and
    saves nothing more. *)
Theorem first_contact_is_trusted self known_hosts (cargs : connect_args)
    connection key :
  known_hosts !! hostname self = None ->
  connection_args host self known_hosts = Ok cargs ->
  connect cargs = Ok (connection, key) ->
  let known' := <[hostname self := key]> known_hosts in
  arg_hostkeys cargs = None
  /\ initiate_connection host connect self known_hosts = (Ok connection, known')
  /\ known' !! hostname self = Some key
  /\ (forall h, h <> hostname self -> known' !! h = known_hosts !! h)
  /\ (forall self2 (cargs2 : connect_args),
        hostname self2 = hostname self ->
        connection_args host self2 known' = Ok cargs2 ->
        arg_hostkeys cargs2 = Some known'
        /\ snd (initiate_connection host connect self2 known') = known').
Proof.
  intros Hunknown Hargs Hconnect known'.
  split; [|split; [|split; [|split]]].
  - revert Hargs. unfold connection_args. rewrite Hunknown.
    destruct (password self); [by intros [= <-]|].
    destruct (os_path_isfile host (ssh_key host)); [by intros [= <-]|done].
  - unfold initiate_connection. by rewrite Hargs, Hconnect, Hunknown.
  - apply lookup_insert_eq.
  - intros h Hh. by apply lookup_insert_ne.
  - intros self2 cargs2 Hhost Hargs2.
    assert (known' !! hostname self2 = Some key) as Hknown
      by (rewrite Hhost; apply lookup_insert_eq).
    split.
    + revert Hargs2. unfold connection_args. rewrite Hknown.
      destruct (password self2); [by intros [= <-]|].
      destruct (os_path_isfile host (ssh_key host)); [by intros [= <-]|done].
    + unfold initiate_connection. rewrite Hargs2, Hknown.
      by destruct (connect cargs2) as [[c k]|e].
Qed.

(** X10: [initiate_connection] never changes or drops a key [known_hosts]
    holds: what it leaves holds every key it found, differs from it at most
    at the host connected to, and is the same when the connection was not
    established or the host had a key. *)
Theorem known_hosts_kept self known_hosts :
  let out := initiate_connection host connect self known_hosts in
  (forall h k, known_hosts !! h = Some k -> snd out !! h = Some k)
  /\ (forall h, h <> hostname self -> snd out !! h = known_hosts !! h)
  /\ (is_ok (fst out) = false -> snd out = known_hosts)
  /\ (is_Some (known_hosts !! hostname self) -> snd out = known_hosts).
Proof.
  intros out. subst out. unfold initiate_connection.
  destruct (connection_args host self known_hosts) as [cargs|e];
    [|by repeat split].
  destruct (connect cargs) as [[connection key]|e]; [|by repeat split].
  destruct (known_hosts !! hostname self) as [k0|] eqn:Hknown; simpl.
  - by repeat split.
  - split; [|split; [|split]].
    + intros h k Hk. rewrite lookup_insert_ne; [done|]. congruence.
    + intros h Hh. by apply lookup_insert_ne.
    + done.
    + by intros [? ?].
Qed.

(** X11: a session that [__init__] has started begins with no history
    file, whatever a session before left in it, so that [history] gives the
    empty text; the downloads directory is there and the directories found
    are still there.  When [__init__] raises, because the connection is not
    established or the downloads directory cannot be made, the directories
    and the history file are as it found them. *)
Theorem session_starts_clean self known_hosts dirs history_text :
  let out := SFTP_init host connect self known_hosts dirs history_text in
  match out with
  | (Ok w, dirs', history', _) =>
      history_file w = None /\ history' = None
      /\ fst (history [] w) = Ok (PyText "")
      /\ (DOWNLOADS_DIRECTORY ∈ local_dirs w)
      /\ local_dirs w = {[ DOWNLOADS_DIRECTORY ]} ∪ dirs
      /\ dirs' = local_dirs w
  | (Raise _, dirs', history', _) =>
      dirs' = dirs /\ history' = history_text
  end.
Proof.
  intros out. subst out. unfold SFTP_init.
  destruct (initiate_connection host connect self known_hosts)
    as [[connection|e] known']; [|done].
  unfold init_local, bind. simpl.
  destruct (decide (DOWNLOADS_DIRECTORY ∈ dirs)) as [Hin|Hout]; simpl.
  - repeat split; try done. apply set_eq. intros x.
    rewrite elem_of_union, elem_of_singleton. split; [tauto|].
    by intros [->|?].
  - unfold os_mkdir. simpl.
    destruct (os_fault host (OsMkdir DOWNLOADS_DIRECTORY)); simpl; [done|].
    rewrite decide_False by done. simpl.
    repeat split; try done. by apply elem_of_union_l, elem_of_singleton.
Qed.

End Bootstrap.

End MoreFacts.

(** ** Further facts on the tree filesystem *)

Section TreeFacts.

Import TreeFSLaws.

Local Open Scope list_scope.

(** X12: [is_connected] and [ping] answer by the listing of the working
    directory alone.  When the listing raises, both raise that error, so
    [is_connected] never answers [False] for a connection that is down; when
    it returns, they answer [False] and [nothing happened] exactly when the
    directory is empty. *)
Theorem liveness_is_a_listing {R} `{!Facade R} (w : world (R:=R)) :
  calls (snd (is_connected w)) = calls w ++ [Listdir None]
  /\ calls (snd (ping w)) = calls w ++ [Listdir None]
  /\ match fst (fa_listdir None (remote w)) with
     | Raise e => fst (is_connected w) = Raise e /\ fst (ping w) = Raise e
     | Ok names =>
         fst (is_connected w) = Ok (negb (bool_decide (names = [])))
         /\ fst (ping w)
            = Ok (if bool_decide (names = []) then "nothing happened"
                  else "pong")
     end.
Proof.
  unfold is_connected, ping, bind, conn_listdir, conn_call, ret.
  destruct (fa_listdir None (remote w)) as [[names|e] r]; simpl; [|done].
  by destruct names.
Qed.

(** X13: on the tree filesystem, [rm] of a path that names a file, when
    the removal is not refused, returns [None] after the check and the
    removal; the remote tree is then the one before with that entry taken
    out, the path no longer exists, and a second [rm] of it raises the usage
    error. *)
Theorem rm_removes_file (flt : call -> option exn) p root lds hist tr :
  flt (Remove p) = None ->
  TreeFS.resolve_node (TreeFS.components p) (Dir root) = Some File ->
  exists root',
    let w' := World (TreeFS.State root' flt) lds
                    (Some (default "" hist ++ history_line Vrm [p])%string)
                    (tr ++ [Isfile p; Remove p]) in
    rm [p] (World (TreeFS.State root flt) lds hist tr) = (Ok PyNone, w')
    /\ Dir root' = TreeFS.remove_at (TreeFS.components p) (Dir root)
    /\ TreeFS.exists_ p (TreeFS.State root' flt) = false
    /\ fst (rm [p] w') = Raise (Exn TypeError rm_usage).
Proof.
  intros Hremove Hres.
  assert (TreeFS.components p <> []) as Hne
    by (intros Hnil; by rewrite Hnil in Hres).
  destruct (exists_last Hne) as (init & c & Hcs).
  pose proof Hres as Hres'. rewrite Hcs, resolve_node_snoc in Hres'.
  destruct (TreeFS.resolve_node init (Dir root)) as [[| |parent|]|] eqn:Hinit;
    try discriminate Hres'.
  set (root' := TreeFS.after init (TreeFS.remove_entry c parent) root).
  assert (TreeFS.resolve_node (TreeFS.components p) (Dir root') = None)
    as Hgone.
  { rewrite Hcs, resolve_node_snoc. unfold root'.
    rewrite (TreeFSRemoval.resolve_after _ _ _ _ Hinit).
    apply lookup_remove_entry. }
  exists root'. cbv zeta. split; [|split; [|split]].
  - unfold rm, log_history, rm_body.
    unfold bind, history_append, conn_isfile, conn_query, log_call,
      conn_remove, conn_call.
    cbn [length Nat.ltb Nat.leb remote local_dirs history_file calls
         fa_isfile fa_remove TreeFSLaws.facade].
    unfold TreeFS.isfile, TreeFS.resolve. cbn [TreeFS.tree]. rewrite Hres.
    cbn [remote local_dirs history_file calls].
    unfold TreeFS.remove, TreeFS.with_fault. cbn [TreeFS.fault].
    rewrite Hremove. unfold TreeFS.alter. cbn [TreeFS.tree].
    rewrite Hcs, (alter_node_focus _ _ _ _ _ Hinit), Hres'.
    cbn [TreeFS.set_entry]. rewrite <- TreeFSRemoval.after_spec.
    fold root'. unfold ret, history_line, history_record, verb_name.
    cbn [PyStr.join].
    rewrite !string_app_assoc, <- !app_assoc. reflexivity.
  - rewrite Hcs, (remove_at_snoc _ _ _ _ Hinit).
    apply TreeFSRemoval.after_spec.
  - unfold TreeFS.exists_, TreeFS.resolve. cbn [TreeFS.tree].
    by rewrite Hgone.
  - unfold rm, log_history, rm_body.
    unfold bind, history_append, conn_isfile, conn_query, log_call.
    cbn [length Nat.ltb Nat.leb remote local_dirs history_file calls
         fa_isfile TreeFSLaws.facade fst].
    unfold TreeFS.isfile, TreeFS.resolve. cbn [TreeFS.tree].
    by rewrite Hgone.
Qed.

Lemma lookup_entry_In name x es :
  TreeFS.lookup_entry name es = Some x -> In (name, x) es.
Proof.
  induction es as [|[n y] es IH]; simpl; [done|].
  destruct (String.eqb n name) eqn:E.
  - apply String.eqb_eq in E. intros [= ->]. left. by rewrite E.
  - intros Hx. right. by apply IH.
Qed.

(** X14: on the tree filesystem, [mkdir] of a name the working directory
    does not hold, followed by [rmdir] of that name, both return [None] when
    neither call is refused, [ls] in between lists the name, and the remote
    tree is afterwards the one before. *)
Theorem mkdir_then_rmdir (flt : call -> option exn) name root lds hist tr :
  TreeFS.good_name name = true ->
  ~ In name (map fst root) ->
  flt (Mkdir name (Some mkdir_mode)) = None ->
  flt (Walktree name) = None ->
  flt (Rmdir name) = None ->
  let w := World (TreeFS.State root flt) lds hist tr in
  let w1 := snd (mkdir [name] w) in
  let w2 := snd (rmdir [name] w1) in
  fst (mkdir [name] w) = Ok PyNone
  /\ TreeFS.resolve name (remote w1) = Some (Dir [])
  /\ (flt (Listdir None) = None ->
      exists names, fst (ls [] w1) = Ok (PyList names) /\ In name names)
  /\ fst (rmdir [name] w1) = Ok PyNone
  /\ remote w2 = remote w
  /\ calls w2 = tr ++ [Mkdir name (Some mkdir_mode);
                       Isdir name; Walktree name; Rmdir name].
Proof.
  intros Hgood Habsent Hmk Hwalk Hrmdir w w1 w2.
  pose proof (components_name _ Hgood) as Hcs.
  assert (negb (PyStr.find "/"%char name =? -1) = false) as Hfind.
  { pose proof (find_has_slash name) as Hslash. unfold PosixPath.sep in Hslash.
    rewrite Hslash. unfold has_slash.
    apply andb_true_iff in Hgood as [_ Hsep]. by apply negb_true_iff. }
  set (root1 := TreeFS.put_entry name (Dir []) root).
  assert (mkdir [name] w
          = (Ok PyNone,
             World (TreeFS.State root1 flt) lds
                   (Some (default "" hist ++ history_line Vmkdir [name])%string)
                   (tr ++ [Mkdir name (Some mkdir_mode)]))) as Hmkdir.
  { unfold w, mkdir, log_history, mkdir_body. rewrite Hfind.
    unfold bind, history_append, conn_mkdir, conn_call.
    cbn [length Nat.ltb Nat.leb remote local_dirs history_file calls
         fa_mkdir TreeFSLaws.facade].
    unfold TreeFS.mkdir, TreeFS.with_fault. cbn [TreeFS.fault].
    rewrite Hmk. unfold TreeFS.alter. cbn [TreeFS.tree]. rewrite Hcs.
    cbn [TreeFS.alter_node]. rewrite (lookup_entry_absent _ _ Habsent).
    cbn [TreeFS.set_entry]. fold root1.
    unfold ret, history_line, history_record, verb_name. cbn [PyStr.join].
    by rewrite !string_app_assoc. }
  assert (TreeFS.resolve_node [name] (Dir root1) = Some (Dir [])) as Hnew.
  { cbn [TreeFS.resolve_node]. unfold root1. by rewrite lookup_put_entry. }
  assert (rmdir [name] w1
          = (Ok PyNone,
             World (TreeFS.State root flt) lds
                   (Some (default "" (history_file w1)
                          ++ history_line Vrmdir [name])%string)
                   (tr ++ [Mkdir name (Some mkdir_mode);
                           Isdir name; Walktree name; Rmdir name]))) as Hrm.
  { unfold w1. rewrite Hmkdir. cbn [snd history_file].
    unfold rmdir, log_history, rmdir_body.
    unfold bind at 1 2, history_append, conn_isdir, conn_query, log_call.
    cbn [length Nat.ltb Nat.leb remote local_dirs history_file calls
         fa_isdir TreeFSLaws.facade].
    unfold TreeFS.isdir, TreeFS.resolve. cbn [TreeFS.tree].
    rewrite Hcs, Hnew.
    unfold conn_walktree, bind, conn_call, conn_rmdir.
    cbn [remote local_dirs history_file calls fa_walk fa_rmdir
         TreeFSLaws.facade].
    unfold TreeFS.walk, TreeFS.with_fault, TreeFS.entries_at, TreeFS.resolve.
    cbn [TreeFS.fault TreeFS.tree]. rewrite Hwalk, Hcs, Hnew.
    cbn [walk_entries ret rev for_each app].
    unfold conn_call. cbn [remote local_dirs history_file calls].
    unfold TreeFS.rmdir, TreeFS.with_fault. cbn [TreeFS.fault].
    rewrite Hrmdir. unfold TreeFS.alter. cbn [TreeFS.tree]. rewrite Hcs.
    cbn [TreeFS.alter_node]. unfold root1 at 1. rewrite lookup_put_entry.
    cbn [TreeFS.set_entry]. unfold root1.
    rewrite remove_put_entry, (remove_entry_absent _ _ Habsent).
    unfold ret, history_line, history_record, verb_name. cbn [PyStr.join].
    rewrite !string_app_assoc, <- !app_assoc. reflexivity. }
  split; [by rewrite Hmkdir|].
  split; [unfold w1; rewrite Hmkdir; unfold TreeFS.resolve;
          cbn [snd remote TreeFS.tree]; by rewrite Hcs|].
  split.
  { intros Hls. exists (map fst root1). split.
    - unfold w1. rewrite Hmkdir. cbn [snd].
      unfold ls, log_history, ls_body.
      unfold bind, history_append, conn_listdir, conn_call.
      cbn [length Nat.ltb Nat.leb remote local_dirs history_file calls
           fa_listdir TreeFSLaws.facade].
      unfold TreeFS.listdir, TreeFS.with_fault. cbn [TreeFS.fault].
      by rewrite Hls.
    - apply in_map_iff. exists (name, Dir []). split; [done|].
      apply lookup_entry_In. unfold root1. apply lookup_put_entry. }
  split; [by rewrite Hrm|].
  split; [unfold w2; by rewrite Hrm|].
  unfold w2. by rewrite Hrm.
Qed.

End TreeFacts.

(** ** The further facts, run *)

Module MoreRuns.

Import Scenario.

Local Open Scope list_scope.


(** [put notes.txt photos notes.txt]: the file is uploaded once, then the
    directory stops the command. *)
Lemma put_stops_at_bad_argument_run :
  fst (put host ["notes.txt"; "photos"; "notes.txt"] start)
    = Raise (Exn IOError "Cannot put directories")
  /\ calls (snd (put host ["notes.txt"; "photos"; "notes.txt"] start))
     = [Put "notes.txt" None true].
Proof.
  exact (proj2 (proj2 (put_stops_at_bad_argument host
                         ["notes.txt"] ["photos"; "notes.txt"]
                         (Exn IOError "Cannot put directories") start
                         eq_refl eq_refl))
           eq_refl).
Defined.

(** [put -t root notes.txt]: [root] exists, the [mkdir] raises and is
    passed over, the file is uploaded into it. *)
Lemma put_into_target_run :
  calls (snd (put host ["-t"; "root"; "notes.txt"] start))
    = [Mkdir "root" None; Put "notes.txt" (Some "root/notes.txt") true].
Proof.
  exact (put_into_target host "-t" "root" "notes.txt" start eq_refl eq_refl).
Defined.


(** [cp root root-copy] with a download that breaks off, then [cp] of
    another directory named [root]. *)
Lemma cp_retry_collides_run :
  let w1 := snd (cp host ["root"; "root-copy"] (session root_tree download_fails)) in
  fst (cp host ["elsewhere/root"; "copy"] w1)
    = Raise (Exn FileExistsError "/tmp/root")
  /\ calls (snd (cp host ["elsewhere/root"; "copy"] w1))
     = calls w1 ++ [Exists "copy"; OsMkdir "/tmp/root"].
Proof.
  assert ("/tmp/root" ∉ local_dirs (session root_tree download_fails))
    as Hfresh by (apply (bool_decide_unpack _); vm_compute; exact I).
  pose proof (proj2 (cp_retry_collides host "root" "root-copy"
                       (Exn SSHException "Connection reset by peer")
                       (session root_tree download_fails)
                       eq_refl eq_refl Hfresh eq_refl)
                "elsewhere/root" "copy" eq_refl eq_refl) as Hrun.
  cbv zeta. rewrite Hrun. by split.
Defined.

(** The first connection of [alice] with no key known, and the second. *)
Lemma first_contact_is_trusted_run :
  initiate_connection host accepting alice ∅
    = (Ok (TreeFS.State root_tree no_fault), {[ hostname alice := server_key ]})
  /\ snd (initiate_connection host accepting alice
            {[ hostname alice := server_key ]})
     = {[ hostname alice := server_key ]}.
Proof.
  pose proof (first_contact_is_trusted host accepting alice ∅
                (ConnectArgs (hostname alice) (username alice) None
                             (Some "secret") None None)
                (TreeFS.State root_tree no_fault) server_key
                (lookup_empty _) eq_refl eq_refl)
    as (_ & Hfirst & _ & _ & Hnext).
  split; [exact Hfirst|].
  exact (proj2 (Hnext alice _ eq_refl eq_refl)).
Defined.

(** [rm root/a.txt]. *)
Lemma rm_removes_file_run :
  exists root',
    rm ["root/a.txt"] start
      = (Ok PyNone,
         World (TreeFS.State root' no_fault) ∅
               (Some ("rm root/a.txt" ++ HISTORY_NEWLINE)%string)
               [Isfile "root/a.txt"; Remove "root/a.txt"])
    /\ Dir root' = Dir [("root", Dir [("sub", Dir [("b.txt", File)])])].
Proof.
  destruct (rm_removes_file no_fault "root/a.txt" root_tree ∅ None []
              eq_refl eq_refl) as (root' & Hrun & Htree & _).
  exists root'. split; [exact Hrun|exact Htree].
Defined.

(** [mkdir new], then [rmdir new]. *)
Lemma mkdir_then_rmdir_run :
  fst (mkdir ["new"] start) = Ok PyNone
  /\ fst (rmdir ["new"] (snd (mkdir ["new"] start))) = Ok PyNone
  /\ remote (snd (rmdir ["new"] (snd (mkdir ["new"] start)))) = remote start.
Proof.
  assert (~ In "new" (map fst root_tree)) as Habsent
    by (simpl; intuition discriminate).
  pose proof (mkdir_then_rmdir no_fault "new" root_tree ∅ None []
                eq_refl Habsent eq_refl eq_refl eq_refl)
    as (Hmk & _ & _ & Hrm & Hback & _).
  split; [exact Hmk|]. split; [exact Hrm|exact Hback].
Defined.

End MoreRuns.
